(** * URL shortener: admission control and the short-link registry

    A shallow embedding of [main.py]: the MD5-based code generator, the
    Redis-backed request counters, the [url_map] table and the three HTTP
    handlers, followed by the properties of the specification.

    Representation choices, fixed once for the whole development:
    - a Python [str] is a [string], read as the UTF-8 encoding of the text,
      so that [str.encode()] is the list of its bytes;
    - a naive [datetime] is a number of microseconds ([Z]); the text column
      [created_at] ('%Y-%m-%d %H:%M:%S') keeps whole seconds;
    - every clock reading made while one request is served returns the same
      instant, passed to the handler as [now];
    - Redis values are the integers that [INCR]/[DECR] maintain, with the
      deadline set by [EXPIRE]; counters stay far below the 64-bit limit of
      the store, so they are unbounded integers here;
    - a handler is first a function of the state it finds, which is what it
      is when requests are served one after another; [post_step] then takes
      a POST one round trip to a store at a time, each step with its own
      instant, for the requests that overlap. *)

From Stdlib Require Import ZArith List Ascii String Lia Bool.
From stdpp Require Import base option list strings gmap.
Import ListNotations.

#[local] Open Scope string_scope.
#[local] Open Scope Z_scope.

(** ** hashlib.md5 (RFC 1321) *)

Module hashlib.

Definition wrap32 (x : Z) : Z := x mod 2 ^ 32.
Definition add32 (x y : Z) : Z := wrap32 (x + y).
Definition not32 (x : Z) : Z := Z.lxor x 0xffffffff.
Definition rotl32 (x c : Z) : Z :=
  wrap32 (Z.lor (Z.shiftl x c) (Z.shiftr x (32 - c))).

Definition shifts : list Z :=
  [ 7; 12; 17; 22; 7; 12; 17; 22; 7; 12; 17; 22; 7; 12; 17; 22;
    5;  9; 14; 20; 5;  9; 14; 20; 5;  9; 14; 20; 5;  9; 14; 20;
    4; 11; 16; 23; 4; 11; 16; 23; 4; 11; 16; 23; 4; 11; 16; 23;
    6; 10; 15; 21; 6; 10; 15; 21; 6; 10; 15; 21; 6; 10; 15; 21 ].

(** [floor (2^32 * abs (sin (i + 1)))] for [i] in [0 .. 63]. *)
Definition sines : list Z :=
  [ 0xd76aa478; 0xe8c7b756; 0x242070db; 0xc1bdceee;
    0xf57c0faf; 0x4787c62a; 0xa8304613; 0xfd469501;
    0x698098d8; 0x8b44f7af; 0xffff5bb1; 0x895cd7be;
    0x6b901122; 0xfd987193; 0xa679438e; 0x49b40821;
    0xf61e2562; 0xc040b340; 0x265e5a51; 0xe9b6c7aa;
    0xd62f105d; 0x02441453; 0xd8a1e681; 0xe7d3fbc8;
    0x21e1cde6; 0xc33707d6; 0xf4d50d87; 0x455a14ed;
    0xa9e3e905; 0xfcefa3f8; 0x676f02d9; 0x8d2a4c8a;
    0xfffa3942; 0x8771f681; 0x6d9d6122; 0xfde5380c;
    0xa4beea44; 0x4bdecfa9; 0xf6bb4b60; 0xbebfbc70;
    0x289b7ec6; 0xeaa127fa; 0xd4ef3085; 0x04881d05;
    0xd9d4d039; 0xe6db99e5; 0x1fa27cf8; 0xc4ac5665;
    0xf4292244; 0x432aff97; 0xab9423a7; 0xfc93a039;
    0x655b59c3; 0x8f0ccc92; 0xffeff47d; 0x85845dd1;
    0x6fa87e4f; 0xfe2ce6e0; 0xa3014314; 0x4e0811a1;
    0xf7537e82; 0xbd3af235; 0x2ad7d2bb; 0xeb86d391 ].

(** The four chaining words A, B, C, D. *)
Record state := State { sa : Z; sb : Z; sc : Z; sd : Z }.

Definition init : state :=
  State 0x67452301 0xefcdab89 0x98badcfe 0x10325476.

(** Little-endian bytes of a word, and back. *)
Definition le_bytes (n : nat) (x : Z) : list Z :=
  map (fun i => Z.shiftr x (8 * Z.of_nat i) mod 256) (seq 0 n).

Definition le_word (bs : list Z) (i : nat) : Z :=
  nth (4 * i) bs 0
  + Z.shiftl (nth (4 * i + 1) bs 0) 8
  + Z.shiftl (nth (4 * i + 2) bs 0) 16
  + Z.shiftl (nth (4 * i + 3) bs 0) 24.

(** Message padding: a one bit, zeros up to 56 modulo 64, and the bit
    length on 64 bits. *)
Definition pad (msg : list Z) : list Z :=
  let len := Z.of_nat (List.length msg) in
  msg ++ [128] ++ repeat 0 (Z.to_nat ((55 - len) mod 64))
      ++ le_bytes 8 ((8 * len) mod 2 ^ 64).

(** One of the 64 operations of the compression function. *)
Definition step (block : list Z) (st : state) (i : nat) : state :=
  let '(State a b c d) := st in
  let '(f, g) :=
    if (i <? 16)%nat then
      (Z.lor (Z.land b c) (Z.land (not32 b) d), i)
    else if (i <? 32)%nat then
      (Z.lor (Z.land d b) (Z.land (not32 d) c), ((5 * i + 1) mod 16)%nat)
    else if (i <? 48)%nat then
      (Z.lxor (Z.lxor b c) d, ((3 * i + 5) mod 16)%nat)
    else
      (Z.lxor c (Z.lor b (not32 d)), ((7 * i) mod 16)%nat) in
  let f' := add32 (add32 (add32 f a) (nth i sines 0)) (le_word block g) in
  State d (add32 b (rotl32 f' (nth i shifts 0))) b c.

Definition compress (st : state) (block : list Z) : state :=
  let '(State a b c d) := fold_left (step block) (seq 0 64) st in
  State (add32 (sa st) a) (add32 (sb st) b)
        (add32 (sc st) c) (add32 (sd st) d).

(** The block loop: [n] blocks of 64 bytes, in order. *)
Fixpoint blocks (n : nat) (st : state) (bs : list Z) : state :=
  match n with
  | O => st
  | S n' => blocks n' (compress st (firstn 64 bs)) (skipn 64 bs)
  end.

Definition md5 (msg : list Z) : list Z :=
  let padded := pad msg in
  let '(State a b c d) :=
    blocks (List.length padded / 64) init padded in
  le_bytes 4 a ++ le_bytes 4 b ++ le_bytes 4 c ++ le_bytes 4 d.

(** Lower-case hexadecimal rendering. *)
Definition hex_digit (n : Z) : ascii :=
  nth (Z.to_nat n) (list_ascii_of_string "0123456789abcdef") "0"%char.

Definition hex_byte (b : Z) : list ascii :=
  [hex_digit (b / 16); hex_digit (b mod 16)].

Definition hexdigest (digest : list Z) : string :=
  string_of_list_ascii (flat_map hex_byte digest).

End hashlib.

(** [str.encode()]: the UTF-8 bytes of the text. *)
Definition encode (s : string) : list Z :=
  map (fun c => Z.of_N (N_of_ascii c)) (list_ascii_of_string s).

(** [generate_short_url]: the first six characters of the MD5 hex digest. *)
Definition generate_short_url (full_url : string) : string :=
  substring 0 6 (hashlib.hexdigest (hashlib.md5 (encode full_url))).

(** ** The Redis counter store

    A key holds an integer and, once [EXPIRE] has been applied, a deadline;
    a key whose deadline has passed reads as absent. *)

Module redis.

Record entry := Entry { value : Z; deadline : option Z }.

Abbreviation store := (gmap string entry).

Definition live (now : Z) (e : entry) : bool :=
  match deadline e with
  | None => true
  | Some d => now <=? d
  end.

Definition find (now : Z) (k : string) (r : store) : option entry :=
  match r !! k with
  | Some e => if live now e then Some e else None
  | None => None
  end.

(** GET *)
Definition get (now : Z) (k : string) (r : store) : option Z :=
  value <$> find now k r.

(** INCRBY: an absent key starts from zero and has no deadline; a live key
    keeps its deadline.  [INCR] and [DECR] are the increments 1 and -1. *)
Definition incrby (d : Z) (now : Z) (k : string) (r : store) : Z * store :=
  match find now k r with
  | Some e => (value e + d, <[k := Entry (value e + d) (deadline e)]> r)
  | None => (d, <[k := Entry d None]> r)
  end.

Definition incr : Z -> string -> store -> Z * store := incrby 1.
Definition decr : Z -> string -> store -> Z * store := incrby (-1).

(** EXPIRE, with the time to live in seconds *)
Definition expire (now : Z) (k : string) (ttl : Z) (r : store) : bool * store :=
  match find now k r with
  | Some e => (true, <[k := Entry (value e) (Some (now + ttl * 1000000))]> r)
  | None => (false, r)
  end.

End redis.

Definition MAX_CONCURRENT_REQUESTS : Z := 100.
Definition REQUEST_TTL : Z := 60.
Definition MAX_CONCURRENT_REQUESTS_FOR_ONE_USER : Z := 100.

Definition user_key (user_id : string) : string := "user_requests:" +:+ user_id.
Definition total_key : string := "total_requests".

(** [check_rate_limit]: the four commands run as one transaction
    ([pipeline.execute()]); [results[0]] and [results[1]] are the values the
    two increments returned. *)
Definition check_rate_limit (user_id : string) (now : Z) (r : redis.store)
  : bool * redis.store :=
  let '(current_user_requests, r1) := redis.incr now (user_key user_id) r in
  let '(current_total_requests, r2) := redis.incr now total_key r1 in
  let '(_, r3) := redis.expire now (user_key user_id) REQUEST_TTL r2 in
  let '(_, r4) := redis.expire now total_key REQUEST_TTL r3 in
  if (current_total_requests >? MAX_CONCURRENT_REQUESTS)
     || (current_user_requests >? MAX_CONCURRENT_REQUESTS_FOR_ONE_USER)
  then (false, r4)
  else (true, r4).

(** ** The [url_map] table *)

Record url_map_row := Row {
  id : Z;
  full_url : string;
  short_url : string;
  created_at : Z   (* whole seconds, stored as '%Y-%m-%d %H:%M:%S' *)
}.

Definition strftime (t : Z) : Z := t / 1000000.
Definition strptime (s : Z) : Z := s * 1000000.

(** [timedelta(minutes=10)] *)
Definition LINK_TTL : Z := 10 * 60 * 1000000.

Definition is_link_expired (now : Z) (created_at : Z) : bool :=
  now >? strptime created_at + LINK_TTL.

Module sql.

(** SELECT ... WHERE full_url = ?, then [fetchone]: the first row in
    rowid order. *)
Definition select_by_full_url (f : string) (t : list url_map_row)
  : option url_map_row :=
  List.find (fun r => String.eqb (full_url r) f) t.

Definition select_by_short_url (s : string) (t : list url_map_row)
  : option url_map_row :=
  List.find (fun r => String.eqb (short_url r) s) t.

(** UPDATE ... SET short_url = ?, created_at = ? WHERE full_url = ? *)
Definition update (s : string) (c : Z) (f : string) (t : list url_map_row)
  : list url_map_row :=
  map (fun r => if String.eqb (full_url r) f
                then Row (id r) (full_url r) s c else r) t.

(** INSERT: rows are never deleted, so AUTOINCREMENT hands out the
    largest id so far plus one. *)
Definition next_id (t : list url_map_row) : Z :=
  fold_right Z.max 0 (map id t) + 1.

Definition insert (f s : string) (c : Z) (t : list url_map_row)
  : list url_map_row :=
  t ++ [Row (next_id t) f s c].

End sql.

(** ** Requests, responses and the state the handlers run in *)

(** A JSON body of POST /generate that follows [url_model]: each field is a
    string or is not there.  The handler does not check this; [AnyBody]
    below is the handler on a body of any shape, and it agrees with
    [GenerateURL] on the bodies of this type. *)
Record json_body := Json {
  json_full_url : option string;
  json_user_id : option string
}.

Inductive payload :=
  | JsonError (error : string)
  | JsonShortUrl (short : string)
  | JsonFullUrl (full : string)
  | Location (target : string).

Record response := Response { body : payload; status : Z }.

Inductive exn :=
  | OperationalError (msg : string)
  | InterfaceError (msg : string)
  | AttributeError (msg : string)
  | ValueError (msg : string)
  | BadRequest (msg : string).

(** [db] is [None] until [create_table] has run. *)
Record world := World {
  db : option (list url_map_row);
  rds : redis.store;
  app_errors_log : list (Z * exn)
}.

Definition create_table (w : world) : world :=
  match db w with
  | Some _ => w
  | None => World (Some []) (rds w) (app_errors_log w)
  end.

(** How a block of statements ends: it falls through with a value, or it
    leaves the function by [return] or by an exception. *)
Inductive completion :=
  | Returns (r : response)
  | Raises (e : exn).

Inductive result (A : Type) :=
  | Next (a : A)
  | Done (c : completion).
Arguments Next {A} a.
Arguments Done {A} c.

Definition action (L A : Type) : Type := L * world -> result A * (L * world).

#[global] Instance action_ret {L} : MRet (action L) :=
  fun A a s => (Next a, s).

#[global] Instance action_bind {L} : MBind (action L) :=
  fun A B f m s =>
    match m s with
    | (Next a, s') => f a s'
    | (Done c, s') => (Done c, s')
    end.

Definition return_ {L A} (b : payload) (code : Z) : action L A :=
  fun s => (Done (Returns (Response b code)), s).

Definition raise {L A} (e : exn) : action L A :=
  fun s => (Done (Raises e), s).

Definition pass {L} : action L unit := mret tt.

(** try: ... except Exception as e: ... *)
Definition try_except {L A} (body : action L A) (handler : exn -> action L A)
  : action L A :=
  fun s =>
    match body s with
    | (Done (Raises e), s') => handler e s'
    | other => other
    end.

(** try: ... finally: ...  The completion of the body stands unless the
    finally block itself leaves the function. *)
Definition try_finally {L A} (body : action L A) (final : action L unit)
  : action L A :=
  fun s =>
    let '(res, s') := body s in
    match final s' with
    | (Next _, s'') => (res, s'')
    | (Done c, s'') => (Done c, s'')
    end.

(** Running a function body that cannot fall off its end. *)
Definition call {L} (m : action L Empty_set) (vars : L) (w : world)
  : completion * world :=
  match m (vars, w) with
  | (Next a, _) => match a with end
  | (Done c, (_, w')) => (c, w')
  end.

(** Access to the two stores and to the error log. *)
Definition on_redis {L A} (op : redis.store -> A * redis.store) : action L A :=
  fun '(l, w) =>
    let '(a, r) := op (rds w) in
    (Next a, (l, World (db w) r (app_errors_log w))).

Definition redis_get {L} (now : Z) (k : string) : action L (option Z) :=
  fun '(l, w) => (Next (redis.get now k (rds w)), (l, w)).

Definition query {L A} (q : list url_map_row -> A) : action L A :=
  fun '(l, w) =>
    match db w with
    | Some t => (Next (q t), (l, w))
    | None => (Done (Raises (OperationalError "no such table: url_map")), (l, w))
    end.

Definition execute {L} (stmt : list url_map_row -> list url_map_row)
  : action L unit :=
  fun '(l, w) =>
    match db w with
    | Some t => (Next tt, (l, World (Some (stmt t)) (rds w) (app_errors_log w)))
    | None => (Done (Raises (OperationalError "no such table: url_map")), (l, w))
    end.

Definition log_error {L} (now : Z) (e : exn) : action L unit :=
  fun '(l, w) =>
    (Next tt, (l, World (db w) (rds w) (app_errors_log w ++ [(now, e)]))).

(** [redirect(location, code=302)]: the response carries the target in its
    Location header, and a header value holding a carriage return or a line
    feed is refused with a [ValueError]. *)
Definition has_newline (s : string) : bool :=
  existsb (fun c => Ascii.eqb c "010" || Ascii.eqb c "013")
          (list_ascii_of_string s).

Definition redirect {L A} (location : string) : action L A :=
  if has_newline location
  then raise (ValueError "Header values must not contain newline characters.")
  else return_ (Location location) 302.

Definition internal_error {L} (now : Z) (e : exn) : action L Empty_set :=
  log_error now e;;
  return_ (JsonError "An error occurred") 500.

(** ** POST /generate *)

Module GenerateURL.

Record locals := Locals {
  user_id : option string;
  counters_increased : bool
}.

Definition assign_user_id (v : option string) : action locals unit :=
  fun '(l, w) => (Next tt, (Locals v (counters_increased l), w)).

Definition assign_counters_increased (b : bool) : action locals unit :=
  fun '(l, w) => (Next tt, (Locals (user_id l) b, w)).

Definition read_locals : action locals locals :=
  fun '(l, w) => (Next l, (l, w)).

(** Truth value of a field: [None] and the empty string are false. *)
Definition truthy (v : option string) : option string :=
  match v with
  | Some s => if String.eqb s "" then None else Some s
  | None => None
  end.

(** [current and int(current) > 0] *)
Definition positive (current : option Z) : bool :=
  match current with
  | Some n => n >? 0
  | None => false
  end.

(** The body of the [try] block (lines 95-131).  The connection of the
    [with] block carries no state of its own; the write and its [commit]
    are one step. *)
Definition post_try (req : json_body) (now : Z) : action locals Empty_set :=
  let full_url := json_full_url req in
  assign_user_id (json_user_id req);;
  match truthy (json_user_id req) with
  | None => return_ (JsonError "user_id is required") 400
  | Some user_id =>
  match truthy full_url with
  | None => return_ (JsonError "URL is required") 400
  | Some full_url =>
    is_allowed ← on_redis (check_rate_limit user_id now);
    assign_counters_increased true;;
    (if negb is_allowed
     then return_ (JsonError "Too many concurrent requests. Please try again later.") 429
     else pass);;
    row ← query (sql.select_by_full_url full_url);
    match row with
    | Some r =>
        if negb (is_link_expired now (created_at r))
        then return_ (JsonShortUrl (short_url r)) 200
        else pass
    | None => pass
    end;;
    let new_short_url := generate_short_url full_url in
    let new_created_at := strftime now in
    match row with
    | Some _ => execute (sql.update new_short_url new_created_at full_url)
    | None => execute (sql.insert full_url new_short_url new_created_at)
    end;;
    return_ (JsonShortUrl new_short_url) 201
  end
  end.

(** The [finally] block (lines 137-146): give the two slots back, never
    below zero. *)
Definition post_finally (now : Z) : action locals unit :=
  l ← read_locals;
  if counters_increased l then
    match user_id l with
    | Some u =>
        current_user_requests ← redis_get now (user_key u);
        if positive current_user_requests
        then on_redis (redis.decr now (user_key u));; pass
        else pass
    | None => pass
    end;;
    current_total_requests ← redis_get now total_key;
    if positive current_total_requests
    then on_redis (redis.decr now total_key);; pass
    else pass
  else pass.

Arguments post_finally : simpl never.

Definition post (req : json_body) (now : Z) (w : world) : completion * world :=
  call (try_finally
          (try_except (post_try req now) (internal_error now))
          (post_finally now))
       (Locals None false) w.

End GenerateURL.

(** ** GET /get/<short_url> *)

Module GetFullURL.

Definition get (short : string) (now : Z) (w : world) : completion * world :=
  call (try_except
          (row ← query (sql.select_by_short_url short);
           match row with
           | None => return_ (JsonError "Full URL not found") 404
           | Some r =>
               if is_link_expired now (created_at r)
               then return_ (JsonError "This link has expired") 410
               else return_ (JsonFullUrl (full_url r)) 200
           end)
          (internal_error now))
       tt w.

End GetFullURL.

(** ** GET /<short_url> *)

Module RedirectURL.

Definition get (short : string) (now : Z) (w : world) : completion * world :=
  call (try_except
          (row ← query (sql.select_by_short_url short);
           match row with
           | None => return_ (JsonError "Full URL not found") 404
           | Some r =>
               if is_link_expired now (created_at r)
               then return_ (JsonError "This link has expired") 410
               else redirect (full_url r)
           end)
          (internal_error now))
       tt w.

End RedirectURL.

(** ** POST /generate, whatever the body

    [api.expect(url_model)] documents the body and validates nothing, so
    the handler runs on any body.  [GenerateURL] above is the handler on the
    bodies that follow [url_model]; this is the handler as it stands. *)

Module AnyBody.

(** A field as [request.json.get] returns it: [None] for a missing or null
    field, a [str], or another JSON value (number, boolean, array, object).
    Of such a value the handler uses the truth value, the rendering in an
    f-string, and the text SQLite compares a TEXT column with when the value
    is bound as a parameter, which is [None] when sqlite3 cannot bind the
    value (an array, an object). *)
Inductive field :=
  | Absent
  | Text (s : string)
  | Other (truth : bool) (rendering : string) (bound : option string).

(** The body: [request.json] raises when it is not JSON, and a JSON value
    that is not an object has no [get]. *)
Inductive request_body :=
  | NotJson
  | NotObject
  | Object (full_url user_id : field).

Definition of_option (v : option string) : field :=
  match v with
  | Some s => Text s
  | None => Absent
  end.

(** A body that follows [url_model]. *)
Definition typed (req : json_body) : request_body :=
  Object (of_option (json_full_url req)) (of_option (json_user_id req)).

Definition truth (v : field) : bool :=
  match v with
  | Absent => false
  | Text s => negb (String.eqb s "")
  | Other b _ _ => b
  end.

(** The value inside an f-string. *)
Definition format (v : field) : string :=
  match v with
  | Absent => "None"
  | Text s => s
  | Other _ s _ => s
  end.

Record locals := Locals {
  user_id : field;
  counters_increased : bool
}.

Definition assign_user_id (v : field) : action locals unit :=
  fun '(l, w) => (Next tt, (Locals v (counters_increased l), w)).

Definition assign_counters_increased (b : bool) : action locals unit :=
  fun '(l, w) => (Next tt, (Locals (user_id l) b, w)).

Definition read_locals : action locals locals :=
  fun '(l, w) => (Next l, (l, w)).

(** [cur.execute('SELECT ... WHERE full_url = ?', (full_url,))] and
    [fetchone]: the statement is prepared, then the parameter is bound. *)
Definition select_by_full_url {L} (v : field) : action L (option url_map_row) :=
  fun '(l, w) =>
    match db w with
    | None => (Done (Raises (OperationalError "no such table: url_map")), (l, w))
    | Some t =>
        match v with
        | Absent => (Next None, (l, w))
        | Text s => (Next (sql.select_by_full_url s t), (l, w))
        | Other _ _ (Some s) => (Next (sql.select_by_full_url s t), (l, w))
        | Other _ _ None =>
            (Done (Raises (InterfaceError "Error binding parameter 0")), (l, w))
        end
    end.

(** The body of the [try] block (lines 95-131). *)
Definition post_try (body : request_body) (now : Z) : action locals Empty_set :=
  match body with
  | NotJson => raise (BadRequest "the body is not JSON")
  | NotObject => raise (AttributeError "object has no attribute 'get'")
  | Object full_url user_id =>
      assign_user_id user_id;;
      if negb (truth user_id)
      then return_ (JsonError "user_id is required") 400
      else
      if negb (truth full_url)
      then return_ (JsonError "URL is required") 400
      else
      is_allowed ← on_redis (check_rate_limit (format user_id) now);
      assign_counters_increased true;;
      (if negb is_allowed
       then return_ (JsonError "Too many concurrent requests. Please try again later.") 429
       else pass);;
      row ← select_by_full_url full_url;
      match row with
      | Some r =>
          if negb (is_link_expired now (created_at r))
          then return_ (JsonShortUrl (short_url r)) 200
          else pass
      | None => pass
      end;;
      match full_url with
      | Text url =>
          let new_short_url := generate_short_url url in
          let new_created_at := strftime now in
          match row with
          | Some _ => execute (sql.update new_short_url new_created_at url)
          | None => execute (sql.insert url new_short_url new_created_at)
          end;;
          return_ (JsonShortUrl new_short_url) 201
      | _ => raise (AttributeError "object has no attribute 'encode'")
      end
  end.

(** The [finally] block (lines 137-146). *)
Definition post_finally (now : Z) : action locals unit :=
  l ← read_locals;
  if counters_increased l then
    match user_id l with
    | Absent => pass
    | v =>
        current_user_requests ← redis_get now (user_key (format v));
        if GenerateURL.positive current_user_requests
        then on_redis (redis.decr now (user_key (format v)));; pass
        else pass
    end;;
    current_total_requests ← redis_get now total_key;
    if GenerateURL.positive current_total_requests
    then on_redis (redis.decr now total_key);; pass
    else pass
  else pass.

Arguments post_finally : simpl never.

Definition post (body : request_body) (now : Z) (w : world) : completion * world :=
  call (try_finally
          (try_except (post_try body now) (internal_error now))
          (post_finally now))
       (Locals Absent false) w.

End AnyBody.

(** * Vocabulary of the properties *)

(** ** The code generator *)

Definition hex_chars : list ascii := list_ascii_of_string "0123456789abcdef".

Definition is_byte (b : Z) : Prop := 0 <= b < 256.

(** ** The counters *)

(** What a counter reads at [now]: an absent or expired key counts for zero. *)
Definition counter (now : Z) (k : string) (r : redis.store) : Z :=
  default 0 (redis.get now k r).

(** The store after the [finally] block of a request of [u] whose counters
    were increased, when its commands run in a row at one instant, with no
    command of another request between them; [release_step] below takes the
    block one command at a time. *)
Definition release (u : string) (now : Z) (r : redis.store) : redis.store :=
  rds (snd (snd (GenerateURL.post_finally now
                   (GenerateURL.Locals (Some u) true, World None r [])))).

(** The net effect of [INCR k] followed by [EXPIRE k REQUEST_TTL], and of
    the guarded [DECR k]. *)
Definition bump (now : Z) (k : string) (r : redis.store) : redis.store :=
  <[k := redis.Entry (counter now k r + 1) (Some (now + REQUEST_TTL * 1000000))]> r.

Definition drop (now : Z) (k : string) (r : redis.store) : redis.store :=
  match redis.find now k r with
  | Some e =>
      if redis.value e >? 0
      then <[k := redis.Entry (redis.value e - 1) (redis.deadline e)]> r
      else r
  | None => r
  end.

(** What a lookup by code answers on a table: the first row carrying the
    code decides. *)
Definition reply_for_code (found : string -> payload * Z) (short : string) (now : Z)
  (t : list url_map_row) : response :=
  match sql.select_by_short_url short t with
  | None => Response (JsonError "Full URL not found") 404
  | Some r =>
      if is_link_expired now (created_at r)
      then Response (JsonError "This link has expired") 410
      else let '(b, c) := found (full_url r) in Response b c
  end.

(** The exception a redirect by code meets on a table, if any: the row found
    is live and its URL cannot go into a Location header. *)
Definition redirect_error (short : string) (now : Z) (t : list url_map_row)
  : option exn :=
  match sql.select_by_short_url short t with
  | Some r =>
      if negb (is_link_expired now (created_at r)) && has_newline (full_url r)
      then Some (ValueError "Header values must not contain newline characters.")
      else None
  | None => None
  end.

(** ** Validation *)

Definition missing_or_empty (v : option string) : Prop :=
  v = None \/ v = Some "".

(** ** Admission and release as events *)

(** An admission ([check_rate_limit]) or a release (the [finally] block) of
    a request of [user], with the instant at which it runs.  Each event runs
    as a whole: a release here is never cut in two by another event. *)
Inductive event :=
  | Admission (user : string) (time : Z)
  | Release (user : string) (time : Z).


Definition apply_event (r : redis.store) (ev : event) : redis.store :=
  match ev with
  | Admission u t => snd (check_rate_limit u t r)
  | Release u t => release u t r
  end.

Definition run (evs : list event) (r : redis.store) : redis.store :=
  fold_left apply_event evs r.





(** Every stored value is at least zero. *)
Definition nonneg (r : redis.store) : Prop :=
  forall k e, r !! k = Some e -> 0 <= redis.value e.


(** ** One record per URL *)

(** The requests the service answers, with the instant at which each is
    served; [Startup] is the call of [create_table].  A POST carries a body
    that follows [url_model]. *)
Inductive http_request :=
  | Startup
  | PostGenerate (body : json_body) (now : Z)
  | GetFull (short : string) (now : Z)
  | GetRedirect (short : string) (now : Z).

(** The state after a request served as a whole, before the next one
    starts; [post_step] below takes a POST one step at a time. *)
Definition serve (w : world) (rq : http_request) : world :=
  match rq with
  | Startup => create_table w
  | PostGenerate b now => snd (GenerateURL.post b now w)
  | GetFull s now => snd (GetFullURL.get s now w)
  | GetRedirect s now => snd (RedirectURL.get s now w)
  end.

Definition records_of (f : string) (t : list url_map_row) : list url_map_row :=
  List.filter (fun r => String.eqb (full_url r) f) t.

(** At most one row per [full_url]. *)
Definition single_record (w : world) : Prop :=
  forall t, db w = Some t ->
  forall f, (List.length (records_of f t) <= 1)%nat.

(** ** States, answers and runs of requests *)

(** Every row stores the code of its own URL. *)
Definition coded (w : world) : Prop :=
  forall t, db w = Some t ->
  forall row, In row t -> short_url row = generate_short_url (full_url row).


(** The answer a request gets; the start-up call answers nobody. *)
Definition reply (w : world) (rq : http_request) : option completion :=
  match rq with
  | Startup => None
  | PostGenerate b now => Some (fst (GenerateURL.post b now w))
  | GetFull s now => Some (fst (GetFullURL.get s now w))
  | GetRedirect s now => Some (fst (RedirectURL.get s now w))
  end.

(** The answers of requests served one after another. *)
Fixpoint answers (w : world) (rqs : list http_request) : list completion :=
  match rqs with
  | [] => []
  | rq :: rest => option_list (reply w rq) ++ answers (serve w rq) rest
  end.

(** The answer is a response whose status satisfies [P]. *)
Definition status_is (P : Z -> Prop) (a : completion) : Prop :=
  exists b c, a = Returns (Response b c) /\ P c.

(** [t'] still has every row of [t], at its place, with its id and URL. *)
Definition kept (t t' : list url_map_row) : Prop :=
  (List.length t <= List.length t')%nat
  /\ forall (i : nat) row,
      t !! i = Some row ->
      exists row', t' !! i = Some row'
                   /\ id row' = id row /\ full_url row' = full_url row.

(** The store with the requests of the users [us] all admitted at [now] and
    none of them released yet. *)
Definition in_flight (us : list string) (now : Z) (r : redis.store) : redis.store :=
  run (map (fun u => Admission u now) us) r.


(** ** Bodies of any shape *)

(** The row the lookup by URL finds for a field on a table, [None] when the
    field cannot be bound. *)
Definition lookup (v : AnyBody.field) (t : list url_map_row)
  : option (option url_map_row) :=
  match v with
  | AnyBody.Absent => Some None
  | AnyBody.Text s => Some (sql.select_by_full_url s t)
  | AnyBody.Other _ _ (Some s) => Some (sql.select_by_full_url s t)
  | AnyBody.Other _ _ None => None
  end.

(** The row found is there and not expired. *)
Definition live_row (now : Z) (row : option url_map_row) : option url_map_row :=
  match row with
  | Some r => if is_link_expired now (created_at r) then None else Some r
  | None => None
  end.

(** ** URLs and the Location header *)

(** No stored URL holds a line break. *)
Definition one_line (w : world) : Prop :=
  forall t, db w = Some t ->
  forall row, In row t -> has_newline (full_url row) = false.

(** The request does not post a URL with a line break. *)
Definition posts_one_line (rq : http_request) : Prop :=
  match rq with
  | PostGenerate b _ => forall f, json_full_url b = Some f -> has_newline f = false
  | _ => True
  end.

Definition is_redirect (rq : http_request) : bool :=
  match rq with
  | GetRedirect _ _ => true
  | _ => false
  end.

(** ** Requests that overlap

    The server runs each request in a thread of its own and the two stores
    are shared, so between two statements of one request the statements of
    another may run.  Here a request is taken one round trip to a store at
    a time; [check_rate_limit] is one step, its pipeline being a
    transaction, and so is a write to the table with its [commit]. *)

(** One turn: thread [fst tn] takes its next step, at the instant [snd tn],
    on the shared store. *)
Definition turn {P S : Type} (step : Z -> P -> S -> P * S)
  (s : list P * S) (tn : nat * Z) : list P * S :=
  match fst s !! fst tn with
  | Some p =>
      let '(p', st') := step (snd tn) p (snd s) in
      (<[fst tn := p']> (fst s), st')
  | None => s
  end.

Definition interleave {P S : Type} (step : Z -> P -> S -> P * S)
  (turns : list (nat * Z)) (threads : list P) (st : S) : list P * S :=
  fold_left (turn step) turns (threads, st).

(** Where a request stands in its [finally] block. *)
Inductive release_pc :=
  | GetUser     (* line 140 *)
  | DecrUser    (* line 142 *)
  | GetTotal    (* line 144 *)
  | DecrTotal   (* line 146 *)
  | Released.

(** The next command of the [finally] block of a request of [u] whose
    counters were increased. *)
Definition release_step (now : Z) (p : string * release_pc) (r : redis.store)
  : (string * release_pc) * redis.store :=
  let '(u, pc) := p in
  match pc with
  | GetUser =>
      let current_user_requests := redis.get now (user_key u) r in
      ((u, if GenerateURL.positive current_user_requests
           then DecrUser else GetTotal), r)
  | DecrUser => ((u, GetTotal), snd (redis.decr now (user_key u) r))
  | GetTotal =>
      let current_total_requests := redis.get now total_key r in
      ((u, if GenerateURL.positive current_total_requests
           then DecrTotal else Released), r)
  | DecrTotal => ((u, Released), snd (redis.decr now total_key r))
  | Released => ((u, Released), r)
  end.


(** Where a POST /generate stands. *)
Inductive post_pc :=
  | Received (req : json_body)                                   (* lines 92-108 *)
  | Lookup (user_id full_url : string)                           (* lines 110-118 *)
  | Store (user_id full_url : string) (row : option url_map_row) (* lines 120-131 *)
  | Finally (user_id : string) (pc : release_pc) (answer : response)
                                                                 (* lines 137-146 *)
  | Sent (answer : response).

(** What the [except] clause does about a missing table, on the way to the
    [finally] block. *)
Definition no_such_table (now : Z) (user_id : string) (w : world)
  : post_pc * world :=
  (Finally user_id GetUser (Response (JsonError "An error occurred") 500),
   World (db w) (rds w)
     (app_errors_log w ++ [(now, OperationalError "no such table: url_map")])).

(** The next step of a POST /generate. *)
Definition post_step (now : Z) (p : post_pc) (w : world) : post_pc * world :=
  match p with
  | Received req =>
      match GenerateURL.truthy (json_user_id req) with
      | None => (Sent (Response (JsonError "user_id is required") 400), w)
      | Some user_id =>
      match GenerateURL.truthy (json_full_url req) with
      | None => (Sent (Response (JsonError "URL is required") 400), w)
      | Some full_url =>
          let '(is_allowed, r) := check_rate_limit user_id now (rds w) in
          let w' := World (db w) r (app_errors_log w) in
          if negb is_allowed
          then (Finally user_id GetUser
                  (Response (JsonError "Too many concurrent requests. Please try again later.") 429),
                w')
          else (Lookup user_id full_url, w')
      end
      end
  | Lookup user_id full_url =>
      match db w with
      | None => no_such_table now user_id w
      | Some t =>
          let row := sql.select_by_full_url full_url t in
          match row with
          | Some r =>
              if negb (is_link_expired now (created_at r))
              then (Finally user_id GetUser
                      (Response (JsonShortUrl (short_url r)) 200), w)
              else (Store user_id full_url row, w)
          | None => (Store user_id full_url row, w)
          end
      end
  | Store user_id full_url row =>
      let new_short_url := generate_short_url full_url in
      let new_created_at := strftime now in
      match db w with
      | None => no_such_table now user_id w
      | Some t =>
          (Finally user_id GetUser (Response (JsonShortUrl new_short_url) 201),
           World (Some match row with
                       | Some _ => sql.update new_short_url new_created_at full_url t
                       | None => sql.insert full_url new_short_url new_created_at t
                       end)
                 (rds w) (app_errors_log w))
      end
  | Finally user_id pc answer =>
      let '((_, pc'), r) := release_step now (user_id, pc) (rds w) in
      let w' := World (db w) r (app_errors_log w) in
      match pc' with
      | Released => (Sent answer, w')
      | _ => (Finally user_id pc' answer, w')
      end
  | Sent answer => (Sent answer, w)
  end.

(** The POSTs [reqs], their steps taking turns. *)
Definition requests (turns : list (nat * Z)) (reqs : list json_body) (w : world)
  : list post_pc * world :=
  interleave post_step turns (map Received reqs) w.

(** Seven steps see a POST through. *)
Definition in_a_row (now : Z) : list (nat * Z) := repeat (0%nat, now) 7.

(** * Properties *)

(** ** The digest *)

Example md5_empty :
  hashlib.hexdigest (hashlib.md5 (encode "")) = "d41d8cd98f00b204e9800998ecf8427e".
Proof. vm_compute. reflexivity. Qed.

Example md5_abc :
  hashlib.hexdigest (hashlib.md5 (encode "abc")) = "900150983cd24fb0d6963f7d28e17f72".
Proof. vm_compute. reflexivity. Qed.

Example md5_padding_boundary :
  hashlib.hexdigest (hashlib.md5 (encode
    "aaaaaaaaaaaaaaaaaaaaaaaaaaaaaaaaaaaaaaaaaaaaaaaaaaaaaaaa"))
  = "3b0c8ac703f828b04c6c197006d17218".
Proof. vm_compute. reflexivity. Qed.

Example md5_two_blocks :
  hashlib.hexdigest (hashlib.md5 (encode
    "aaaaaaaaaaaaaaaaaaaaaaaaaaaaaaaaaaaaaaaaaaaaaaaaaaaaaaaaaaaaaaaa"))
  = "014842d480b571495a4a0363793f7367".
Proof. vm_compute. reflexivity. Qed.

Example generate_short_url_groups :
  generate_short_url "https://ruz.spbstu.ru/faculty/125/groups/" = "69365b".
Proof. vm_compute. reflexivity. Qed.

Lemma le_bytes_length n x : List.length (hashlib.le_bytes n x) = n.
Proof. unfold hashlib.le_bytes. now rewrite length_map, length_seq. Qed.

Lemma le_bytes_range n x : Forall is_byte (hashlib.le_bytes n x).
Proof.
  unfold hashlib.le_bytes. apply List.Forall_forall. intros b Hb.
  apply in_map_iff in Hb as (i & <- & _).
  unfold is_byte. apply Z.mod_pos_bound. lia.
Qed.

Lemma md5_length msg : List.length (hashlib.md5 msg) = 16%nat.
Proof.
  unfold hashlib.md5.
  destruct (hashlib.blocks _ _ _) as [a b c d].
  now rewrite !length_app, !le_bytes_length.
Qed.

Lemma md5_range msg : Forall is_byte (hashlib.md5 msg).
Proof.
  unfold hashlib.md5.
  destruct (hashlib.blocks _ _ _) as [a b c d].
  repeat apply Forall_app_2; apply le_bytes_range.
Qed.

Lemma hex_digit_hex n : 0 <= n < 16 -> In (hashlib.hex_digit n) hex_chars.
Proof.
  intros Hn. unfold hashlib.hex_digit. apply nth_In.
  change (List.length hex_chars) with 16%nat. lia.
Qed.

Lemma hex_bytes_length bs :
  List.length (flat_map hashlib.hex_byte bs) = (2 * List.length bs)%nat.
Proof. induction bs as [|b bs IH]; simpl; [reflexivity | rewrite IH; lia]. Qed.

Lemma hex_bytes_hex bs :
  Forall is_byte bs ->
  Forall (fun c => In c hex_chars) (flat_map hashlib.hex_byte bs).
Proof.
  induction 1 as [|b bs Hb _ IH]; simpl; [constructor|].
  unfold is_byte in Hb.
  constructor; [|constructor; [|exact IH]]; apply hex_digit_hex.
  - split; [apply Z.div_pos; lia | apply Z.div_lt_upper_bound; lia].
  - apply Z.mod_pos_bound; lia.
Qed.

Lemma substring_prefix n l :
  substring 0 n (string_of_list_ascii l) = string_of_list_ascii (firstn n l).
Proof.
  revert l; induction n as [|n IH]; intros [|c l]; simpl; try reflexivity.
  now rewrite IH.
Qed.

Lemma string_of_list_length l :
  String.length (string_of_list_ascii l) = List.length l.
Proof. induction l as [|c l IH]; simpl; [reflexivity | now rewrite IH]. Qed.

(** ** The counters and the release block *)

Lemma user_key_total_key u : user_key u <> total_key.
Proof. unfold user_key, total_key. simpl. discriminate. Qed.

Lemma find_insert now k e (r : redis.store) :
  redis.find now k (<[k := e]> r) = if redis.live now e then Some e else None.
Proof. unfold redis.find. now rewrite lookup_insert_eq. Qed.

Lemma find_insert_ne now k k' e (r : redis.store) :
  k <> k' -> redis.find now k (<[k' := e]> r) = redis.find now k r.
Proof. intros Hk. unfold redis.find. now rewrite lookup_insert_ne. Qed.

Lemma find_live now k (r : redis.store) e :
  redis.find now k r = Some e -> redis.live now e = true.
Proof.
  unfold redis.find. destruct (r !! k) as [e'|]; [|discriminate].
  destruct (redis.live now e') eqn:Hl; [|discriminate].
  now intros [= <-].
Qed.

Lemma live_window now v :
  redis.live now (redis.Entry v (Some (now + REQUEST_TTL * 1000000))) = true.
Proof. unfold redis.live, REQUEST_TTL. simpl. apply Z.leb_le. lia. Qed.

Lemma counter_insert_ne now k k' e (r : redis.store) :
  k <> k' -> counter now k (<[k' := e]> r) = counter now k r.
Proof. intros Hk. unfold counter, redis.get. now rewrite find_insert_ne. Qed.

(** [INCR k; EXPIRE k 60], with commands on another key in between. *)
Lemma incr_then_expire now k (r : redis.store) :
  exists dl,
    redis.incr now k r
    = (counter now k r + 1, <[k := redis.Entry (counter now k r + 1) dl]> r)
    /\ redis.live now (redis.Entry (counter now k r + 1) dl) = true.
Proof.
  unfold redis.incr, redis.incrby, counter, redis.get.
  destruct (redis.find now k r) as [e|] eqn:Hf; simpl.
  - exists (redis.deadline e). split; [reflexivity|].
    apply find_live in Hf. exact Hf.
  - exists None. split; reflexivity.
Qed.

Lemma expire_insert now k v dl (r : redis.store) :
  redis.live now (redis.Entry v dl) = true ->
  snd (redis.expire now k REQUEST_TTL (<[k := redis.Entry v dl]> r))
  = <[k := redis.Entry v (Some (now + REQUEST_TTL * 1000000))]> r.
Proof.
  intros Hl. unfold redis.expire. rewrite find_insert, Hl. simpl.
  apply insert_insert_eq.
Qed.

Lemma check_rate_limit_eq u now (r : redis.store) :
  check_rate_limit u now r
  = (negb ((counter now total_key r + 1 >? MAX_CONCURRENT_REQUESTS)
           || (counter now (user_key u) r + 1 >? MAX_CONCURRENT_REQUESTS_FOR_ONE_USER)),
     bump now total_key (bump now (user_key u) r)).
Proof.
  pose proof (user_key_total_key u) as Hne.
  unfold check_rate_limit.
  destruct (incr_then_expire now (user_key u) r) as (du & -> & Hu).
  set (cu := counter now (user_key u) r) in *.
  destruct (incr_then_expire now total_key (<[user_key u := redis.Entry (cu + 1) du]> r))
    as (dt & -> & Ht).
  rewrite counter_insert_ne in * by congruence.
  set (ct := counter now total_key r) in *.
  rewrite (insert_insert_ne r total_key (user_key u)) by congruence.
  destruct (redis.expire now (user_key u) _ _) as [b3 r3] eqn:E3.
  apply (f_equal snd) in E3. rewrite expire_insert in E3 by exact Hu.
  simpl in E3. subst r3.
  rewrite (insert_insert_ne _ (user_key u) total_key) by congruence.
  destruct (redis.expire now total_key _ _) as [b4 r4] eqn:E4.
  apply (f_equal snd) in E4. rewrite expire_insert in E4 by exact Ht.
  simpl in E4. subst r4.
  unfold bump. rewrite counter_insert_ne by congruence. fold cu ct.
  destruct (_ || _); reflexivity.
Qed.

(** ** The handlers, in closed form *)

Lemma guarded_decr_eq {L} now k (l : L) (w : world) :
  (current ← redis_get now k;
   if GenerateURL.positive current
   then on_redis (redis.decr now k);; pass
   else pass) (l, w)
  = (Next tt, (l, World (db w) (drop now k (rds w)) (app_errors_log w))).
Proof.
  destruct w as [d r lg].
  unfold mbind, action_bind, redis_get, on_redis, pass, mret, action_ret,
    drop, redis.get, redis.decr, redis.incrby, GenerateURL.positive; simpl.
  destruct (redis.find now k r) as [e|] eqn:Hf; simpl; [|reflexivity].
  destruct (redis.value e >? 0); simpl; rewrite ?Hf; reflexivity.
Qed.

Lemma post_finally_eq now u (w : world) :
  GenerateURL.post_finally now (GenerateURL.Locals (Some u) true, w)
  = (Next tt, (GenerateURL.Locals (Some u) true,
               World (db w) (drop now total_key (drop now (user_key u) (rds w)))
                     (app_errors_log w))).
Proof.
  unfold GenerateURL.post_finally.
  unfold mbind at 1, action_bind at 1, GenerateURL.read_locals at 1. simpl.
  unfold mbind at 1, action_bind at 1.
  rewrite guarded_decr_eq.
  rewrite guarded_decr_eq. reflexivity.
Qed.

Lemma release_eq u now (r : redis.store) :
  release u now r = drop now total_key (drop now (user_key u) r).
Proof. unfold release. now rewrite post_finally_eq. Qed.

Lemma truthy_some v s : GenerateURL.truthy v = Some s -> v = Some s /\ s <> "".
Proof.
  destruct v as [s'|]; simpl; [|discriminate].
  destruct (String.eqb s' "") eqn:E; [discriminate|].
  intros [= ->]. split; [reflexivity|].
  intros ->. discriminate.
Qed.

Lemma post_valid req now (w : world) u f :
  GenerateURL.truthy (json_user_id req) = Some u ->
  GenerateURL.truthy (json_full_url req) = Some f ->
  GenerateURL.post req now w
  = let r' := release u now (snd (check_rate_limit u now (rds w))) in
    if negb (fst (check_rate_limit u now (rds w))) then
      (Returns (Response (JsonError "Too many concurrent requests. Please try again later.") 429),
       World (db w) r' (app_errors_log w))
    else
      match db w with
      | None =>
          (Returns (Response (JsonError "An error occurred") 500),
           World None r'
             (app_errors_log w ++ [(now, OperationalError "no such table: url_map")]))
      | Some t =>
          match sql.select_by_full_url f t with
          | Some row =>
              if negb (is_link_expired now (created_at row)) then
                (Returns (Response (JsonShortUrl (short_url row)) 200),
                 World (Some t) r' (app_errors_log w))
              else
                (Returns (Response (JsonShortUrl (generate_short_url f)) 201),
                 World (Some (sql.update (generate_short_url f) (strftime now) f t))
                       r' (app_errors_log w))
          | None =>
              (Returns (Response (JsonShortUrl (generate_short_url f)) 201),
               World (Some (sql.insert f (generate_short_url f) (strftime now) t))
                     r' (app_errors_log w))
          end
      end.
Proof.
  intros Hu Hf.
  destruct (truthy_some _ _ Hu) as [Hu' _].
  unfold GenerateURL.post, call, try_finally, try_except, GenerateURL.post_try.
  rewrite Hu, Hf, Hu'.
  destruct w as [d r lg]. 
  unfold internal_error, log_error.
  unfold mbind, action_bind, GenerateURL.assign_user_id, on_redis,
    GenerateURL.assign_counters_increased, return_, pass, mret, action_ret,
    query, execute.
  cbn [db rds app_errors_log GenerateURL.user_id GenerateURL.counters_increased fst snd].
  destruct (check_rate_limit u now r) as [ok r1].
  cbn [fst snd]. rewrite release_eq.
  destruct ok; cbn; [|rewrite post_finally_eq; reflexivity].
  destruct d as [t|]; cbn; [|rewrite post_finally_eq; reflexivity].
  destruct (sql.select_by_full_url f t) as [row|]; cbn;
    [|rewrite post_finally_eq; reflexivity].
  destruct (is_link_expired now (created_at row)); cbn;
    rewrite post_finally_eq; reflexivity.
Qed.

Lemma post_no_user_id req now (w : world) :
  GenerateURL.truthy (json_user_id req) = None ->
  GenerateURL.post req now w
  = (Returns (Response (JsonError "user_id is required") 400), w).
Proof.
  intros Hu.
  unfold GenerateURL.post, call, try_finally, try_except, GenerateURL.post_try.
  rewrite Hu. destruct w as [d r lg]. reflexivity.
Qed.

Lemma post_no_full_url req now (w : world) u :
  GenerateURL.truthy (json_user_id req) = Some u ->
  GenerateURL.truthy (json_full_url req) = None ->
  GenerateURL.post req now w
  = (Returns (Response (JsonError "URL is required") 400), w).
Proof.
  intros Hu Hf.
  unfold GenerateURL.post, call, try_finally, try_except, GenerateURL.post_try.
  rewrite Hu, Hf. destruct w as [d r lg]. reflexivity.
Qed.

Lemma get_full_url_eq short now (w : world) :
  GetFullURL.get short now w
  = match db w with
    | Some t => (Returns (reply_for_code (fun f => (JsonFullUrl f, 200)) short now t), w)
    | None =>
        (Returns (Response (JsonError "An error occurred") 500),
         World None (rds w)
           (app_errors_log w ++ [(now, OperationalError "no such table: url_map")]))
    end.
Proof.
  destruct w as [[t|] r lg];
    unfold GetFullURL.get, reply_for_code, call, try_except, internal_error, log_error;
    unfold mbind, action_bind, query, return_; cbn; [|reflexivity].
  destruct (sql.select_by_short_url short t) as [row|]; cbn; [|reflexivity].
  destruct (is_link_expired now (created_at row)); reflexivity.
Qed.

Lemma redirect_url_eq short now (w : world) :
  RedirectURL.get short now w
  = match db w with
    | Some t =>
        match redirect_error short now t with
        | Some e =>
            (Returns (Response (JsonError "An error occurred") 500),
             World (Some t) (rds w) (app_errors_log w ++ [(now, e)]))
        | None =>
            (Returns (reply_for_code (fun f => (Location f, 302)) short now t), w)
        end
    | None =>
        (Returns (Response (JsonError "An error occurred") 500),
         World None (rds w)
           (app_errors_log w ++ [(now, OperationalError "no such table: url_map")]))
    end.
Proof.
  destruct w as [[t|] r lg];
    unfold RedirectURL.get, reply_for_code, redirect_error, redirect, call,
      try_except, internal_error, log_error;
    unfold mbind, action_bind, query, return_, raise; cbn; [|reflexivity].
  destruct (sql.select_by_short_url short t) as [row|]; cbn; [|reflexivity].
  destruct (is_link_expired now (created_at row)); cbn; [reflexivity|].
  destruct (has_newline (full_url row)); reflexivity.
Qed.

Lemma redirect_db short now (w : world) :
  db (snd (RedirectURL.get short now w)) = db w.
Proof.
  rewrite redirect_url_eq. destruct (db w) as [t|] eqn:Hdb; [|reflexivity].
  now destruct (redirect_error short now t).
Qed.

Lemma redirect_rds short now (w : world) :
  rds (snd (RedirectURL.get short now w)) = rds w.
Proof.
  rewrite redirect_url_eq. destruct (db w) as [t|]; [|reflexivity].
  now destruct (redirect_error short now t).
Qed.

(** What a lookup that returns a URL, or redirects to one, has found. *)
Lemma get_full_url_found short now (w : world) u c :
  fst (GetFullURL.get short now w) = Returns (Response (JsonFullUrl u) c) ->
  exists t r,
    db w = Some t /\ sql.select_by_short_url short t = Some r
    /\ is_link_expired now (created_at r) = false /\ full_url r = u /\ c = 200.
Proof.
  rewrite get_full_url_eq. unfold reply_for_code.
  destruct (db w) as [t|]; [|discriminate].
  destruct (sql.select_by_short_url short t) as [r|] eqn:Hsel; [|discriminate].
  destruct (is_link_expired now (created_at r)) eqn:Hexp; [discriminate|].
  cbn [fst]. intros [= <- <-]. now exists t, r.
Qed.

Lemma redirect_found short now (w : world) u c :
  fst (RedirectURL.get short now w) = Returns (Response (Location u) c) ->
  exists t r,
    db w = Some t /\ sql.select_by_short_url short t = Some r
    /\ is_link_expired now (created_at r) = false /\ full_url r = u /\ c = 302.
Proof.
  rewrite redirect_url_eq. unfold reply_for_code.
  destruct (db w) as [t|]; [|discriminate].
  destruct (redirect_error short now t); [discriminate|].
  destruct (sql.select_by_short_url short t) as [r|] eqn:Hsel; [|discriminate].
  destruct (is_link_expired now (created_at r)) eqn:Hexp; [discriminate|].
  cbn [fst]. intros [= <- <-]. now exists t, r.
Qed.

(** ** Validation *)

Lemma truthy_none v : GenerateURL.truthy v = None <-> missing_or_empty v.
Proof.
  unfold missing_or_empty. destruct v as [s|]; simpl.
  - destruct (String.eqb s "") eqn:E.
    + apply String.eqb_eq in E as ->. tauto.
    + apply String.eqb_neq in E. split; [discriminate|].
      intros [H|[= H]]; [discriminate | contradiction].
  - tauto.
Qed.

Lemma truthy_cases v :
  missing_or_empty v \/ exists s, GenerateURL.truthy v = Some s.
Proof.
  destruct (GenerateURL.truthy v) as [s|] eqn:E.
  - right. now exists s.
  - left. now apply truthy_none.
Qed.

(** ** The code of a URL *)

Lemma post_created_code req now (w : world) s :
  fst (GenerateURL.post req now w) = Returns (Response (JsonShortUrl s) 201) ->
  exists f, json_full_url req = Some f /\ s = generate_short_url f.
Proof.
  destruct (truthy_cases (json_user_id req)) as [Hu|[u Hu]].
  { apply truthy_none in Hu. rewrite post_no_user_id by exact Hu. discriminate. }
  destruct (truthy_cases (json_full_url req)) as [Hf|[f Hf]].
  { apply truthy_none in Hf. rewrite (post_no_full_url _ _ _ u Hu Hf). discriminate. }
  rewrite (post_valid req now w u f Hu Hf). cbn zeta.
  apply truthy_some in Hf as [Hf _].
  destruct (negb (fst (check_rate_limit u now (rds w)))); [discriminate|].
  destruct (db w) as [t|]; [|discriminate].
  destruct (sql.select_by_full_url f t) as [row|].
  - destruct (negb (is_link_expired now (created_at row))); [discriminate|].
    intros [= <-]. now exists f.
  - intros [= <-]. now exists f.
Qed.

(** C7. [generate_short_url] is a function of its argument alone: equal
    URLs give equal codes, and the code a 201 answer carries is the same
    for the same URL whatever the state, the instant and the user of the
    request.  Its result is always made of exactly six characters, each of
    them one of 0-9, a-f. *)
Theorem generate_short_url_deterministic_six_hex :
  (forall u v : string, u = v -> generate_short_url u = generate_short_url v)
  /\ (forall req1 req2 t1 t2 (w1 w2 : world) s1 s2,
         json_full_url req1 = json_full_url req2 ->
         fst (GenerateURL.post req1 t1 w1)
         = Returns (Response (JsonShortUrl s1) 201) ->
         fst (GenerateURL.post req2 t2 w2)
         = Returns (Response (JsonShortUrl s2) 201) ->
         s1 = s2)
  /\ (forall u : string,
        String.length (generate_short_url u) = 6%nat
        /\ Forall (fun c => In c hex_chars)
                  (list_ascii_of_string (generate_short_url u))).
Proof.
  split; [intros u v ->; reflexivity|]. split.
  - intros req1 req2 t1 t2 w1 w2 s1 s2 Hsame H1 H2.
    apply post_created_code in H1 as (f1 & Hf1 & ->).
    apply post_created_code in H2 as (f2 & Hf2 & ->).
    congruence.
  - intros u. unfold generate_short_url, hashlib.hexdigest.
    rewrite substring_prefix, string_of_list_length, list_ascii_of_string_of_list_ascii.
    split.
    + rewrite length_firstn, hex_bytes_length, md5_length. reflexivity.
    + apply Forall_take, hex_bytes_hex, md5_range.
Qed.

Lemma generate_short_url_deterministic_six_hex_witness :
  generate_short_url "https://a.example/" = generate_short_url "https://a.example/"
  /\ (forall s1 s2,
         fst (GenerateURL.post (Json (Some "https://a.example/") (Some "1")) 0
                (World (Some []) ∅ []))
         = Returns (Response (JsonShortUrl s1) 201) ->
         fst (GenerateURL.post (Json (Some "https://a.example/") (Some "2")) 900000000
                (World (Some [Row 1 "https://a.example/" "e2d259" 0]) ∅ []))
         = Returns (Response (JsonShortUrl s2) 201) ->
         s1 = s2)
  /\ generate_short_url "https://a.example/" = "e2d259".
Proof.
  destruct generate_short_url_deterministic_six_hex as (Hdet & Hsame & _).
  split; [apply Hdet; reflexivity|]. split.
  - intros s1 s2.
    apply (Hsame (Json (Some "https://a.example/") (Some "1"))
                 (Json (Some "https://a.example/") (Some "2"))).
    reflexivity.
  - vm_compute. reflexivity.
Defined.

(** C9. A request without [full_url] or without [user_id] is answered 400
    from inside the [try] block with [counters_increased] still false, that
    is before [check_rate_limit] is called, and the state it leaves (both
    counters, the table, the error log) is the state it found. *)
Theorem validation_precedes_admission req now (w : world) :
  json_full_url req = None \/ json_user_id req = None ->
  exists msg,
    GenerateURL.post_try req now (GenerateURL.Locals None false, w)
    = (Done (Returns (Response (JsonError msg) 400)),
       (GenerateURL.Locals (json_user_id req) false, w))
    /\ GenerateURL.post req now w = (Returns (Response (JsonError msg) 400), w).
Proof.
  intros H.
  destruct (truthy_cases (json_user_id req)) as [Hu|[u Hu]].
  - apply truthy_none in Hu. exists "user_id is required". split.
    + unfold GenerateURL.post_try. rewrite Hu. reflexivity.
    + now apply post_no_user_id.
  - destruct H as [H|H]; [|rewrite H in Hu; discriminate].
    exists "URL is required". split.
    + unfold GenerateURL.post_try. rewrite Hu, H. reflexivity.
    + apply (post_no_full_url _ _ _ u Hu). now rewrite H.
Qed.

Lemma validation_precedes_admission_witness :
  exists msg,
    GenerateURL.post_try (Json None (Some "1")) 5000000
      (GenerateURL.Locals None false,
       World (Some [Row 1 "https://a.example/" "e2d259" 1]) ∅ [])
    = (Done (Returns (Response (JsonError msg) 400)),
       (GenerateURL.Locals (Some "1") false,
        World (Some [Row 1 "https://a.example/" "e2d259" 1]) ∅ []))
    /\ GenerateURL.post (Json None (Some "1")) 5000000
         (World (Some [Row 1 "https://a.example/" "e2d259" 1]) ∅ [])
       = (Returns (Response (JsonError msg) 400),
          World (Some [Row 1 "https://a.example/" "e2d259" 1]) ∅ []).
Proof.
  apply (validation_precedes_admission (Json None (Some "1"))).
  left. reflexivity.
Defined.

(** C10. An empty [user_id] or [full_url] is refused like a missing one,
    with status 400 and the state untouched; [user_id] is looked at first,
    so a request lacking both (missing or empty) is told that [user_id] is
    required, and the complaint about the URL is only made when [user_id]
    is a non-empty string. *)
Theorem empty_fields_rejected_user_id_first req now (w : world) :
  (missing_or_empty (json_user_id req) ->
   GenerateURL.post req now w
   = (Returns (Response (JsonError "user_id is required") 400), w))
  /\ (~ missing_or_empty (json_user_id req) ->
      missing_or_empty (json_full_url req) ->
      GenerateURL.post req now w
      = (Returns (Response (JsonError "URL is required") 400), w)).
Proof.
  split.
  - intros Hu. apply post_no_user_id. now apply truthy_none.
  - intros Hu Hf.
    destruct (truthy_cases (json_user_id req)) as [Hu'|[u Hu']]; [contradiction|].
    apply (post_no_full_url _ _ _ u Hu'). now apply truthy_none.
Qed.

Lemma empty_fields_rejected_user_id_first_witness :
  GenerateURL.post (Json (Some "") (Some "")) 0 (World (Some []) ∅ [])
  = (Returns (Response (JsonError "user_id is required") 400),
     World (Some []) ∅ [])
  /\ GenerateURL.post (Json (Some "") (Some "7")) 0 (World (Some []) ∅ [])
     = (Returns (Response (JsonError "URL is required") 400),
        World (Some []) ∅ []).
Proof.
  split.
  - apply (empty_fields_rejected_user_id_first (Json (Some "") (Some ""))).
    right. reflexivity.
  - apply (empty_fields_rejected_user_id_first (Json (Some "") (Some "7"))).
    + intros [H|H]; discriminate.
    + right. reflexivity.
Defined.

(** ** The registry *)

Lemma select_by_full_url_none f t :
  sql.select_by_full_url f t = None <-> forall row, In row t -> full_url row <> f.
Proof.
  unfold sql.select_by_full_url. split.
  - intros H row Hin Heq.
    pose proof (find_none _ _ H row Hin) as Hb. simpl in Hb.
    apply String.eqb_neq in Hb. contradiction.
  - intros H. destruct (List.find _ t) as [row|] eqn:E; [|reflexivity].
    apply find_some in E as [Hin Hb]. apply String.eqb_eq in Hb.
    now destruct (H row Hin).
Qed.

Lemma select_by_full_url_some f t row :
  sql.select_by_full_url f t = Some row -> In row t /\ full_url row = f.
Proof.
  unfold sql.select_by_full_url. intros E.
  apply find_some in E as [Hin Hb]. now apply String.eqb_eq in Hb.
Qed.

Lemma select_by_short_url_none s t :
  sql.select_by_short_url s t = None <-> forall row, In row t -> short_url row <> s.
Proof.
  unfold sql.select_by_short_url. split.
  - intros H row Hin Heq.
    pose proof (find_none _ _ H row Hin) as Hb. simpl in Hb.
    apply String.eqb_neq in Hb. contradiction.
  - intros H. destruct (List.find _ t) as [row|] eqn:E; [|reflexivity].
    apply find_some in E as [Hin Hb]. apply String.eqb_eq in Hb.
    now destruct (H row Hin).
Qed.

Lemma update_length s c f t : List.length (sql.update s c f t) = List.length t.
Proof. unfold sql.update. apply length_map. Qed.

Lemma update_lookup s c f t (i : nat) row :
  t !! i = Some row ->
  (full_url row = f -> sql.update s c f t !! i = Some (Row (id row) f s c))
  /\ (full_url row <> f -> sql.update s c f t !! i = Some row).
Proof.
  revert i; induction t as [|r t IH]; intros [|i] Hi; try discriminate.
  - injection Hi as ->. simpl. split; intros H.
    + apply String.eqb_eq in H as H'. rewrite H'. now rewrite H.
    + apply String.eqb_neq in H. now rewrite H.
  - simpl in *. apply IH; exact Hi.
Qed.

Lemma is_link_expired_false now c :
  is_link_expired now c = false <-> now <= strptime c + LINK_TTL.
Proof. unfold is_link_expired. rewrite Z.gtb_ltb, Z.ltb_ge. reflexivity. Qed.

Lemma is_link_expired_true now c :
  is_link_expired now c = true <-> now > strptime c + LINK_TTL.
Proof. unfold is_link_expired. rewrite Z.gtb_ltb, Z.ltb_lt. lia. Qed.



Lemma select_by_short_url_some s t row :
  sql.select_by_short_url s t = Some row -> In row t /\ short_url row = s.
Proof.
  unfold sql.select_by_short_url. intros E.
  apply find_some in E as [Hin Hb]. now apply String.eqb_eq in Hb.
Qed.

Lemma update_in s c f t row :
  In row (sql.update s c f t) ->
  (In row t /\ full_url row <> f)
  \/ (exists old, In old t /\ full_url old = f /\ row = Row (id old) f s c).
Proof.
  unfold sql.update. intros H. apply in_map_iff in H as (old & Heq & Hin).
  destruct (String.eqb (full_url old) f) eqn:E.
  - apply String.eqb_eq in E. right. exists old. rewrite E in Heq. now subst.
  - apply String.eqb_neq in E. left. now subst.
Qed.

(** After the write of a 201 answer the table holds a record of [f] with the
    new code, and no record is stamped later than it was before or than the
    write. *)
Lemma written_table f code stamp t t' :
  (t' = sql.insert f code stamp t
   \/ (exists r, sql.select_by_full_url f t = Some r)
      /\ t' = sql.update code stamp f t) ->
  (forall row, In row t -> created_at row <= stamp) ->
  (exists row, In row t' /\ short_url row = code)
  /\ (forall row, In row t' -> created_at row <= stamp).
Proof.
  intros [->|[[r Hr] ->]] Hstamp.
  - unfold sql.insert. split.
    + eexists. split; [apply in_or_app; right; left; reflexivity | reflexivity].
    + intros row Hin. apply in_app_or in Hin as [Hin|[<-|[]]]; simpl; [auto | lia].
  - apply select_by_full_url_some in Hr as [Hin Hfu]. split.
    + exists (Row (id r) (full_url r) code stamp). split; [|reflexivity].
      unfold sql.update. apply in_map_iff. exists r. split; [|exact Hin].
      apply String.eqb_eq in Hfu. now rewrite Hfu.
    + intros row Hrow. apply update_in in Hrow as [[Hrow _]|(old & _ & _ & ->)];
        simpl; [auto | lia].
Qed.

Lemma redirect_error_none short now t :
  sql.select_by_short_url short t = None -> redirect_error short now t = None.
Proof. intros H. unfold redirect_error. now rewrite H. Qed.

Lemma redirect_error_expired short now t r :
  sql.select_by_short_url short t = Some r ->
  is_link_expired now (created_at r) = true ->
  redirect_error short now t = None.
Proof. intros H He. unfold redirect_error. now rewrite H, He. Qed.

Lemma redirect_error_live short now t r :
  sql.select_by_short_url short t = Some r ->
  is_link_expired now (created_at r) = false ->
  redirect_error short now t
  = if has_newline (full_url r)
    then Some (ValueError "Header values must not contain newline characters.")
    else None.
Proof. intros H He. unfold redirect_error. now rewrite H, He. Qed.

(** C5. On a created table, the lookup of a code answers
    - 404 when no record carries the code;
    - 410 when the record found for the code is past its ten minutes;
    - 200 with its full URL otherwise; the redirect then answers 302 to
      that URL, unless the URL holds a carriage return or a line feed, in
      which case building the redirect fails and the answer is 500 with
      one entry in the error log;
    and the table and the counters are left as they were, the expired
    record included.  So once a record has been written at [t0] and nothing
    is written afterwards, at any [later] past the ten minutes both the
    inspection and the redirect of its code answer 410, not 404. *)
Theorem resolve_trichotomy :
  (forall short now (w : world) t,
      db w = Some t ->
      ((forall row, In row t -> short_url row <> short) ->
       GetFullURL.get short now w
       = (Returns (Response (JsonError "Full URL not found") 404), w)
       /\ RedirectURL.get short now w
          = (Returns (Response (JsonError "Full URL not found") 404), w))
      /\ (forall r,
             sql.select_by_short_url short t = Some r ->
             now > strptime (created_at r) + LINK_TTL ->
             GetFullURL.get short now w
             = (Returns (Response (JsonError "This link has expired") 410), w)
             /\ RedirectURL.get short now w
                = (Returns (Response (JsonError "This link has expired") 410), w))
      /\ (forall r,
             sql.select_by_short_url short t = Some r ->
             now <= strptime (created_at r) + LINK_TTL ->
             GetFullURL.get short now w
             = (Returns (Response (JsonFullUrl (full_url r)) 200), w)
             /\ (has_newline (full_url r) = false ->
                 RedirectURL.get short now w
                 = (Returns (Response (Location (full_url r)) 302), w))
             /\ (has_newline (full_url r) = true ->
                 RedirectURL.get short now w
                 = (Returns (Response (JsonError "An error occurred") 500),
                    World (Some t) (rds w)
                      (app_errors_log w
                       ++ [(now, ValueError
                                   "Header values must not contain newline characters.")])))))
  /\ (forall req t0 later (w : world) u f t short,
         GenerateURL.truthy (json_user_id req) = Some u ->
         GenerateURL.truthy (json_full_url req) = Some f ->
         db w = Some t ->
         (forall row, In row t -> created_at row <= strftime t0) ->
         fst (GenerateURL.post req t0 w)
         = Returns (Response (JsonShortUrl short) 201) ->
         later > strptime (strftime t0) + LINK_TTL ->
         let w1 := snd (GenerateURL.post req t0 w) in
         GetFullURL.get short later w1
         = (Returns (Response (JsonError "This link has expired") 410), w1)
         /\ RedirectURL.get short later w1
            = (Returns (Response (JsonError "This link has expired") 410), w1)).
Proof.
  split.
  - intros short now w t Hdb.
    rewrite get_full_url_eq, redirect_url_eq, Hdb.
    split; [|split].
    + intros Hnone. apply select_by_short_url_none in Hnone.
      rewrite (redirect_error_none _ _ _ Hnone). unfold reply_for_code.
      now rewrite Hnone.
    + intros r Hr Hexp. apply is_link_expired_true in Hexp.
      rewrite (redirect_error_expired _ _ _ _ Hr Hexp). unfold reply_for_code.
      now rewrite Hr, Hexp.
    + intros r Hr Hexp. apply is_link_expired_false in Hexp.
      rewrite (redirect_error_live _ _ _ _ Hr Hexp). unfold reply_for_code.
      rewrite Hr, Hexp. split; [reflexivity|].
      split; intros ->; reflexivity.
  - intros req t0 later w u f t short Hu Hf Hdb Hstamp Hcreated Hlater w1.
    assert (exists t1,
               db w1 = Some t1
               /\ (exists row, In row t1 /\ short_url row = short)
               /\ (forall row, In row t1 -> created_at row <= strftime t0))
      as (t1 & Hdb1 & [row [Hin Hcode]] & Hstamp1).
    { subst w1. revert Hcreated.
      rewrite (post_valid _ _ _ _ _ Hu Hf), Hdb. cbn zeta.
      destruct (negb (fst (check_rate_limit u t0 (rds w)))); [discriminate|].
      destruct (sql.select_by_full_url f t) as [r|] eqn:Hsel.
      - destruct (negb (is_link_expired t0 (created_at r))); [discriminate|].
        cbn [fst snd db]. intros [= <-].
        eexists. split; [reflexivity|].
        apply (written_table f _ _ t); [|exact Hstamp].
        right. split; [now exists r | reflexivity].
      - cbn [fst snd db]. intros [= <-].
        eexists. split; [reflexivity|].
        apply (written_table f _ _ t); [|exact Hstamp].
        now left. }
    rewrite get_full_url_eq, redirect_url_eq, Hdb1.
    destruct (sql.select_by_short_url short t1) as [r|] eqn:Hsel.
    + pose proof Hsel as Hsel'.
      apply select_by_short_url_some in Hsel as [Hr _].
      apply Hstamp1 in Hr.
      assert (is_link_expired later (created_at r) = true) as Hexp.
      { apply is_link_expired_true. unfold strptime in *. lia. }
      rewrite (redirect_error_expired _ _ _ _ Hsel' Hexp). unfold reply_for_code.
      rewrite Hsel', Hexp. split; reflexivity.
    + now destruct (proj1 (select_by_short_url_none _ _) Hsel row Hin).
Qed.

(** ** The admission threshold *)

Lemma apply_admission u t (r : redis.store) :
  apply_event r (Admission u t) = bump t total_key (bump t (user_key u) r).
Proof. simpl. now rewrite check_rate_limit_eq. Qed.

Lemma apply_release u t (r : redis.store) :
  apply_event r (Release u t) = drop t total_key (drop t (user_key u) r).
Proof. simpl. apply release_eq. Qed.

Lemma bump_lookup t k (r : redis.store) :
  bump t k r !! k
  = Some (redis.Entry (counter t k r + 1) (Some (t + REQUEST_TTL * 1000000))).
Proof. unfold bump. apply lookup_insert_eq. Qed.

Lemma bump_lookup_ne t k k' (r : redis.store) :
  k <> k' -> bump t k' r !! k = r !! k.
Proof. intros H. unfold bump. now rewrite lookup_insert_ne. Qed.

Lemma drop_lookup_ne t k k' (r : redis.store) :
  k <> k' -> drop t k' r !! k = r !! k.
Proof.
  intros H. unfold drop. destruct (redis.find t k' r) as [e|]; [|reflexivity].
  destruct (redis.value e >? 0); [|reflexivity]. now rewrite lookup_insert_ne.
Qed.

Lemma find_lookup t k (r : redis.store) e :
  redis.find t k r = Some e <-> r !! k = Some e /\ redis.live t e = true.
Proof.
  unfold redis.find. destruct (r !! k) as [e'|].
  - destruct (redis.live t e') eqn:Hl; split.
    + now intros [= <-].
    + now intros [[= <-] _].
    + discriminate.
    + intros [[= <-] H]. congruence.
  - split; [discriminate | now intros [? _]].
Qed.

Lemma counter_find t k (r : redis.store) :
  counter t k r = match redis.find t k r with
                  | Some e => redis.value e
                  | None => 0
                  end.
Proof. unfold counter, redis.get. now destruct (redis.find t k r). Qed.

Lemma counter_bump t k (r : redis.store) :
  counter t k (bump t k r) = counter t k r + 1.
Proof.
  rewrite (counter_find t k (bump t k r)). unfold bump.
  now rewrite find_insert, live_window.
Qed.

Lemma counter_bump_ne t t' k k' (r : redis.store) :
  k <> k' -> counter t k (bump t' k' r) = counter t k r.
Proof. intros H. unfold bump. now apply counter_insert_ne. Qed.

Lemma counter_drop t k (r : redis.store) :
  counter t k (drop t k r)
  = if counter t k r >? 0 then counter t k r - 1 else counter t k r.
Proof.
  rewrite (counter_find t k r). unfold drop.
  destruct (redis.find t k r) as [e|] eqn:Hf.
  - destruct (redis.value e >? 0) eqn:Hv.
    + rewrite counter_find, find_insert.
      apply find_live in Hf. unfold redis.live in *. simpl. now rewrite Hf.
    + now rewrite counter_find, Hf.
  - now rewrite counter_find, Hf.
Qed.

Lemma counter_drop_ne t t' k k' (r : redis.store) :
  k <> k' -> counter t k (drop t' k' r) = counter t k r.
Proof.
  intros H. unfold counter, redis.get, redis.find.
  now rewrite drop_lookup_ne.
Qed.

Lemma counter_admission u t (r : redis.store) :
  counter t (user_key u) (apply_event r (Admission u t)) = counter t (user_key u) r + 1
  /\ counter t total_key (apply_event r (Admission u t)) = counter t total_key r + 1.
Proof.
  pose proof (user_key_total_key u) as Hne.
  rewrite apply_admission. split.
  - rewrite counter_bump_ne by exact Hne. apply counter_bump.
  - rewrite counter_bump. now rewrite counter_bump_ne by congruence.
Qed.

Lemma counter_release u t (r : redis.store) :
  counter t (user_key u) (apply_event r (Release u t))
  = (if counter t (user_key u) r >? 0
     then counter t (user_key u) r - 1 else counter t (user_key u) r)
  /\ counter t total_key (apply_event r (Release u t))
     = (if counter t total_key r >? 0
        then counter t total_key r - 1 else counter t total_key r).
Proof.
  pose proof (user_key_total_key u) as Hne.
  rewrite apply_release. split.
  - rewrite counter_drop_ne by exact Hne. apply counter_drop.
  - rewrite counter_drop. now rewrite counter_drop_ne by congruence.
Qed.

Lemma counter_admissions u t (n : nat) (r : redis.store) :
  counter t (user_key u) (run (repeat (Admission u t) n) r)
  = counter t (user_key u) r + Z.of_nat n
  /\ counter t total_key (run (repeat (Admission u t) n) r)
     = counter t total_key r + Z.of_nat n.
Proof.
  revert r; induction n as [|n IH]; intros r.
  - simpl. lia.
  - change (run (repeat (Admission u t) (S n)) r)
      with (run (repeat (Admission u t) n) (apply_event r (Admission u t))).
    destruct (IH (apply_event r (Admission u t))) as [-> ->].
    destruct (counter_admission u t r) as [-> ->]. lia.
Qed.

Lemma check_rate_limit_allowed u t (r : redis.store) :
  fst (check_rate_limit u t r)
  = negb ((counter t total_key r + 1 >? 100) || (counter t (user_key u) r + 1 >? 100)).
Proof. now rewrite check_rate_limit_eq. Qed.

Lemma run_app evs1 evs2 (r : redis.store) :
  run (evs1 ++ evs2)%list r = run evs2 (run evs1 r).
Proof. apply fold_left_app. Qed.

(** C2, as far as the code goes.  [check_rate_limit] adds one to the count
    of the user and to the global count whatever it answers, and it answers
    [False] exactly when one of the two new counts is above 100.  From
    counts of zero, each of the first 100 admissions of one user is
    accepted and the 101st is refused; the refused admission has been
    counted too, so the user is accepted again once that slot and one more
    have been released. *)
Theorem admission_threshold :
  (forall u now (r : redis.store),
      let '(ok, r') := check_rate_limit u now r in
      counter now (user_key u) r' = counter now (user_key u) r + 1
      /\ counter now total_key r' = counter now total_key r + 1
      /\ (ok = false <->
          counter now total_key r' > 100 \/ counter now (user_key u) r' > 100))
  /\ (forall u now (r : redis.store),
         counter now (user_key u) r = 0 ->
         counter now total_key r = 0 ->
         (forall n : nat,
             (n < 100)%nat ->
             fst (check_rate_limit u now (run (repeat (Admission u now) n) r)) = true)
         /\ fst (check_rate_limit u now (run (repeat (Admission u now) 100) r)) = false
         /\ fst (check_rate_limit u now
                   (run (repeat (Admission u now) 101
                         ++ [Release u now; Release u now])%list r)) = true).
Proof.
  split.
  - intros u now r.
    pose proof (counter_admission u now r) as [Hu Ht].
    pose proof (check_rate_limit_allowed u now r) as Hok.
    simpl in Hu, Ht. destruct (check_rate_limit u now r) as [ok r']. simpl in *.
    rewrite Hu, Ht. split; [reflexivity|]. split; [reflexivity|].
    rewrite Hok, negb_false_iff, orb_true_iff, !Z.gtb_ltb, !Z.ltb_lt. lia.
  - intros u now r Hu Ht. split; [|split].
    + intros n Hn. rewrite check_rate_limit_allowed.
      destruct (counter_admissions u now n r) as [-> ->]. rewrite Hu, Ht.
      apply negb_true_iff, orb_false_iff.
      rewrite !Z.gtb_ltb, !Z.ltb_ge. lia.
    + rewrite check_rate_limit_allowed.
      destruct (counter_admissions u now 100 r) as [-> ->]. rewrite Hu, Ht.
      reflexivity.
    + rewrite check_rate_limit_allowed, run_app.
      change (run [Release u now; Release u now] ?s)
        with (apply_event (apply_event s (Release u now)) (Release u now)).
      set (s := run (repeat (Admission u now) 101) r).
      destruct (counter_release u now (apply_event s (Release u now))) as [-> ->].
      destruct (counter_release u now s) as [-> ->].
      subst s. destruct (counter_admissions u now 101 r) as [-> ->].
      rewrite Hu, Ht. reflexivity.
Qed.

Lemma admission_threshold_witness :
  (forall n : nat,
      (n < 100)%nat ->
      fst (check_rate_limit "1" 0 (run (repeat (Admission "1" 0) n) ∅)) = true)
  /\ fst (check_rate_limit "1" 0 (run (repeat (Admission "1" 0) 100) ∅)) = false
  /\ fst (check_rate_limit "1" 0
            (run (repeat (Admission "1" 0) 101
                  ++ [Release "1" 0; Release "1" 0])%list ∅)) = true.
Proof.
  apply (proj2 admission_threshold "1" 0 ∅); reflexivity.
Defined.

(** The scenario of C2 as the specification words it: after 100 accepted
    admissions and the refused 101st, one release alone does not reopen the
    door, since the count is back at 100 and the next admission makes it 101. *)
Lemma one_release_does_not_reopen :
  fst (check_rate_limit "1" 0 (run (repeat (Admission "1" 0) 100) ∅)) = false
  /\ fst (check_rate_limit "1" 0
            (run (repeat (Admission "1" 0) 101 ++ [Release "1" 0])%list ∅)) = false.
Proof. split; vm_compute; reflexivity. Qed.

(** ** Conservation of the counters *)












Lemma nonneg_counter t k (r : redis.store) : nonneg r -> 0 <= counter t k r.
Proof.
  intros H. rewrite counter_find.
  destruct (redis.find t k r) as [e|] eqn:Hf; [|lia].
  apply find_lookup in Hf as [He _]. now apply (H k).
Qed.





Lemma turn_alone {P S : Type} (step : Z -> P -> S -> P * S) p st now :
  turn step ([p], st) (0%nat, now) = ([fst (step now p st)], snd (step now p st)).
Proof. unfold turn. simpl. now destruct (step now p st). Qed.

Lemma alone_step {P S : Type} (step : Z -> P -> S -> P * S) p st now turns :
  fold_left (turn step) ((0%nat, now) :: turns) ([p], st)
  = fold_left (turn step) turns ([fst (step now p st)], snd (step now p st)).
Proof. simpl. now rewrite turn_alone. Qed.

Lemma positive_get now k (r : redis.store) :
  GenerateURL.positive (redis.get now k r)
  = match redis.find now k r with
    | Some e => redis.value e >? 0
    | None => false
    end.
Proof. unfold redis.get. now destruct (redis.find now k r). Qed.

Lemma decr_found now k (r : redis.store) e :
  redis.find now k r = Some e ->
  snd (redis.decr now k r)
  = <[k := redis.Entry (redis.value e - 1) (redis.deadline e)]> r.
Proof. intros He. unfold redis.decr, redis.incrby. now rewrite He. Qed.





(** ** The slot of a request is given back *)

Lemma admission_release_counter u t k (r : redis.store) :
  k = user_key u \/ k = total_key ->
  0 <= counter t k r ->
  counter t k (release u t (snd (check_rate_limit u t r))) = counter t k r.
Proof.
  intros Hk Hpos.
  pose proof (counter_admission u t r) as [Hau Hat].
  pose proof (counter_release u t (apply_event r (Admission u t))) as [Hru Hrt].
  simpl in *.
  destruct Hk as [->| ->].
  - rewrite Hru, Hau.
    destruct (Z.gtb_spec (counter t (user_key u) r + 1) 0); lia.
  - rewrite Hrt, Hat.
    destruct (Z.gtb_spec (counter t total_key r + 1) 0); lia.
Qed.





Lemma post_rds req now (w : world) u f :
  GenerateURL.truthy (json_user_id req) = Some u ->
  GenerateURL.truthy (json_full_url req) = Some f ->
  rds (snd (GenerateURL.post req now w))
  = release u now (snd (check_rate_limit u now (rds w))).
Proof.
  intros Hu Hf. rewrite (post_valid req now w u f Hu Hf). cbn zeta.
  destruct (negb (fst (check_rate_limit u now (rds w)))); [reflexivity|].
  destruct (db w) as [t|]; [|reflexivity].
  destruct (sql.select_by_full_url f t) as [row|]; [|reflexivity].
  destruct (negb (is_link_expired now (created_at row))); reflexivity.
Qed.

(** C4. A request that passes validation goes through [check_rate_limit],
    and whatever happens next (429, 200, 201, or 500 when the table cannot
    be read), the counters it leaves are those of exactly one run of the
    release block on the counters the admission produced.  Each of these
    exits is decided as the handler decides it, and with counters that were
    not negative both counts read after the request what they read before:
    no slot is kept. *)
Theorem release_on_every_exit req now (w : world) u f :
  GenerateURL.truthy (json_user_id req) = Some u ->
  GenerateURL.truthy (json_full_url req) = Some f ->
  let '(answer, w') := GenerateURL.post req now w in
  rds w' = release u now (snd (check_rate_limit u now (rds w)))
  /\ (exists b c,
         answer = Returns (Response b c)
         /\ (fst (check_rate_limit u now (rds w)) = false -> c = 429)
         /\ (fst (check_rate_limit u now (rds w)) = true ->
             (db w = None -> c = 500)
             /\ (db w <> None -> c = 200 \/ c = 201)))
  /\ (nonneg (rds w) ->
      counter now (user_key u) (rds w') = counter now (user_key u) (rds w)
      /\ counter now total_key (rds w') = counter now total_key (rds w)).
Proof.
  intros Hu Hf.
  pose proof (post_valid req now w u f Hu Hf) as Hpost. cbn zeta in Hpost.
  destruct (GenerateURL.post req now w) as [answer w'].
  assert (rds w' = release u now (snd (check_rate_limit u now (rds w)))
          /\ exists b c,
              answer = Returns (Response b c)
              /\ (fst (check_rate_limit u now (rds w)) = false -> c = 429)
              /\ (fst (check_rate_limit u now (rds w)) = true ->
                  (db w = None -> c = 500)
                  /\ (db w <> None -> c = 200 \/ c = 201))) as [Hr Hc].
  { destruct (fst (check_rate_limit u now (rds w))); cbn [negb] in Hpost.
    - destruct (db w) as [t|].
      + destruct (sql.select_by_full_url f t) as [row|].
        * destruct (is_link_expired now (created_at row)); cbn [negb] in Hpost;
            injection Hpost as -> ->; (split; [reflexivity|]);
            do 2 eexists; (split; [reflexivity|]);
            (split; [discriminate|]); intros _; (split; [discriminate|]);
            intros _; auto.
        * injection Hpost as -> ->. split; [reflexivity|].
          do 2 eexists. split; [reflexivity|].
          split; [discriminate|]. intros _. split; [discriminate|]. auto.
      + injection Hpost as -> ->. split; [reflexivity|].
        do 2 eexists. split; [reflexivity|].
        split; [discriminate|]. intros _. split; [reflexivity|]. congruence.
    - injection Hpost as -> ->. split; [reflexivity|].
      do 2 eexists. split; [reflexivity|].
      split; [reflexivity|]. discriminate. }
  split; [exact Hr|]. split; [exact Hc|].
  intros Hnn. rewrite Hr.
  split; apply admission_release_counter; auto using nonneg_counter.
Qed.

Lemma release_on_every_exit_witness :
  let '(answer, w') :=
    GenerateURL.post (Json (Some "https://a.example/") (Some "1")) 0
                     (World None ∅ []) in
  rds w' = release "1" 0 (snd (check_rate_limit "1" 0 ∅))
  /\ (exists b c,
         answer = Returns (Response b c)
         /\ (fst (check_rate_limit "1" 0 ∅) = false -> c = 429)
         /\ (fst (check_rate_limit "1" 0 ∅) = true ->
             (@None (list url_map_row) = None -> c = 500)
             /\ (@None (list url_map_row) <> None -> c = 200 \/ c = 201)))
  /\ (nonneg ∅ ->
      counter 0 (user_key "1") (rds w') = counter 0 (user_key "1") ∅
      /\ counter 0 total_key (rds w') = counter 0 total_key ∅).
Proof.
  apply (release_on_every_exit (Json (Some "https://a.example/") (Some "1")) 0
           (World None ∅ []) "1" "https://a.example/"); reflexivity.
Defined.

(** The four exits of an accepted or refused request, on concrete states. *)
Example exit_201 :
  fst (GenerateURL.post (Json (Some "https://a.example/") (Some "1")) 0
         (World (Some []) ∅ []))
  = Returns (Response (JsonShortUrl "e2d259") 201).
Proof. vm_compute. reflexivity. Qed.

Example exit_200 :
  fst (GenerateURL.post (Json (Some "https://a.example/") (Some "1")) 0
         (World (Some [Row 1 "https://a.example/" "e2d259" 0]) ∅ []))
  = Returns (Response (JsonShortUrl "e2d259") 200).
Proof. vm_compute. reflexivity. Qed.

Example exit_429 :
  fst (GenerateURL.post (Json (Some "https://a.example/") (Some "1")) 0
         (World (Some []) (run (repeat (Admission "1" 0) 100) ∅) []))
  = Returns (Response
               (JsonError "Too many concurrent requests. Please try again later.")
               429).
Proof. vm_compute. reflexivity. Qed.

Example exit_500 :
  fst (GenerateURL.post (Json (Some "https://a.example/") (Some "1")) 0
         (World None ∅ []))
  = Returns (Response (JsonError "An error occurred") 500).
Proof. vm_compute. reflexivity. Qed.

(** ** Two requests in a row *)






(** ** One record per URL *)

Lemma records_of_update g s c f t :
  List.length (records_of g (sql.update s c f t)) = List.length (records_of g t).
Proof.
  unfold records_of, sql.update. induction t as [|r t IH]; [reflexivity|]. simpl.
  destruct (String.eqb (full_url r) f); simpl;
    destruct (String.eqb (full_url r) g); simpl; now rewrite IH.
Qed.

Lemma records_of_none f t :
  sql.select_by_full_url f t = None -> records_of f t = [].
Proof.
  unfold sql.select_by_full_url, records_of.
  induction t as [|r t IH]; [reflexivity|]. simpl.
  destruct (String.eqb (full_url r) f); [discriminate | exact IH].
Qed.

Lemma records_of_insert g s c f t :
  sql.select_by_full_url f t = None ->
  (List.length (records_of g t) <= 1)%nat ->
  (List.length (records_of g (sql.insert f s c t)) <= 1)%nat.
Proof.
  intros Hnone Hg. unfold records_of, sql.insert.
  rewrite List.filter_app, length_app. simpl.
  destruct (String.eqb_spec f g) as [->|Hfg]; simpl.
  - apply records_of_none in Hnone. unfold records_of in Hnone.
    rewrite Hnone. simpl. lia.
  - unfold records_of in Hg. lia.
Qed.

Lemma single_record_post b now (w : world) :
  single_record w -> single_record (snd (GenerateURL.post b now w)).
Proof.
  intros H.
  destruct (truthy_cases (json_user_id b)) as [Hu|[u Hu]].
  { apply truthy_none in Hu. now rewrite post_no_user_id. }
  destruct (truthy_cases (json_full_url b)) as [Hf|[f Hf]].
  { apply truthy_none in Hf. now rewrite (post_no_full_url _ _ _ u Hu Hf). }
  rewrite (post_valid b now w u f Hu Hf). cbn zeta.
  destruct (negb (fst (check_rate_limit u now (rds w)))); [exact H|].
  destruct (db w) as [t|] eqn:Hdb; [|intros t' [=]].
  pose proof (H t Hdb) as Ht.
  destruct (sql.select_by_full_url f t) as [row|] eqn:Hsel.
  - destruct (negb (is_link_expired now (created_at row))); intros t' [= <-] g.
    + apply Ht.
    + rewrite records_of_update. apply Ht.
  - intros t' [= <-] g. now apply records_of_insert.
Qed.

Lemma single_record_serve (w : world) rq :
  single_record w -> single_record (serve w rq).
Proof.
  intros H. destruct rq as [|b now|s now|s now]; simpl.
  - unfold create_table. destruct (db w) eqn:Hdb; [exact H|].
    intros t [= <-] f. simpl. lia.
  - now apply single_record_post.
  - rewrite get_full_url_eq. destruct (db w) eqn:Hdb; [exact H|].
    intros t [=].
  - intros t Ht. rewrite redirect_db in Ht. now apply H.
Qed.

Lemma sent_in_a_row answer (w : world) turns :
  Forall (fun tn => fst tn = 0%nat) turns ->
  fold_left (turn post_step) turns ([Sent answer], w) = ([Sent answer], w).
Proof.
  induction 1 as [|[i t] turns Hi _ IH]; [reflexivity|].
  simpl in Hi. subst i. now rewrite alone_step.
Qed.

Lemma finally_in_a_row u now answer (w : world) turns :
  fold_left (turn post_step)
    ((0%nat, now) :: (0%nat, now) :: (0%nat, now) :: (0%nat, now) :: turns)
    ([Finally u GetUser answer], w)
  = fold_left (turn post_step) turns
      ([Sent answer], World (db w) (release u now (rds w)) (app_errors_log w)).
Proof.
  rewrite release_eq. unfold drop. destruct w as [d r lg]. cbn [db rds app_errors_log].
  rewrite alone_step. cbn [post_step release_step fst snd rds db app_errors_log].
  rewrite positive_get.
  destruct (redis.find now (user_key u) r) as [e|] eqn:Hu;
    [destruct (redis.value e >? 0)|];
    rewrite alone_step; cbn [post_step release_step fst snd rds db app_errors_log];
    rewrite ?(decr_found _ _ _ _ Hu), ?positive_get.
  - rewrite alone_step. cbn [post_step release_step fst snd rds db app_errors_log].
    rewrite positive_get.
    destruct (redis.find now total_key _) as [e'|] eqn:Ht;
      [destruct (redis.value e' >? 0)|];
      rewrite alone_step; cbn [post_step release_step fst snd rds db app_errors_log];
      rewrite ?(decr_found _ _ _ _ Ht); reflexivity.
  - destruct (redis.find now total_key r) as [e'|] eqn:Ht;
      [destruct (redis.value e' >? 0)|];
      rewrite alone_step; cbn [post_step release_step fst snd rds db app_errors_log];
      rewrite ?(decr_found _ _ _ _ Ht);
      rewrite alone_step; cbn [post_step release_step fst snd rds db app_errors_log];
      reflexivity.
  - destruct (redis.find now total_key r) as [e'|] eqn:Ht;
      [destruct (redis.value e' >? 0)|];
      rewrite alone_step; cbn [post_step release_step fst snd rds db app_errors_log];
      rewrite ?(decr_found _ _ _ _ Ht);
      rewrite alone_step; cbn [post_step release_step fst snd rds db app_errors_log];
      reflexivity.
Qed.

(** The steps of one POST, run in a row at one instant, are the handler. *)
Lemma post_in_a_row req now (w : world) :
  exists answer,
    requests (in_a_row now) [req] w
    = ([Sent answer], snd (GenerateURL.post req now w))
    /\ fst (GenerateURL.post req now w) = Returns answer.
Proof.
  assert (forall turns, Forall (fun tn : nat * Z => fst tn = 0%nat) turns ->
          forall answer (w' : world),
            fold_left (turn post_step) turns ([Sent answer], w')
            = ([Sent answer], w')) as Hsent
    by (intros; now apply sent_in_a_row).
  unfold requests, in_a_row, interleave. cbn [repeat map].
  rewrite alone_step. cbn [post_step].
  destruct (truthy_cases (json_user_id req)) as [Hu|[u Hu]].
  { apply truthy_none in Hu. rewrite Hu, post_no_user_id by exact Hu.
    eexists. split; [|reflexivity]. cbn [fst snd].
    apply Hsent. repeat constructor. }
  rewrite Hu.
  destruct (truthy_cases (json_full_url req)) as [Hf|[f Hf]].
  { apply truthy_none in Hf. rewrite Hf, (post_no_full_url _ _ _ u Hu Hf).
    eexists. split; [|reflexivity]. cbn [fst snd].
    apply Hsent. repeat constructor. }
  rewrite Hf, (post_valid req now w u f Hu Hf). cbn zeta.
  destruct (check_rate_limit u now (rds w)) as [ok r1]. cbn [fst snd negb].
  destruct ok; cbn [negb fst snd].
  - rewrite alone_step. cbn [post_step db rds app_errors_log].
    destruct (db w) as [t|] eqn:Hdb.
    + destruct (sql.select_by_full_url f t) as [row|] eqn:Hsel.
      * destruct (is_link_expired now (created_at row)); cbn [negb fst snd].
        -- rewrite alone_step. cbn [post_step db fst snd].
           rewrite finally_in_a_row. cbn [db rds app_errors_log fst snd].
           eexists. split; reflexivity.
        -- rewrite finally_in_a_row. cbn [db rds app_errors_log fst snd].
           eexists. split; [|reflexivity]. apply Hsent. repeat constructor.
      * cbn [fst snd]. rewrite alone_step. cbn [post_step db fst snd].
        rewrite finally_in_a_row. cbn [db rds app_errors_log fst snd].
        eexists. split; reflexivity.
    + unfold no_such_table. cbn [fst snd db rds app_errors_log].
      rewrite finally_in_a_row. cbn [db rds app_errors_log fst snd].
      eexists. split; [|reflexivity]. apply Hsent. repeat constructor.
  - rewrite finally_in_a_row. cbn [db rds app_errors_log fst snd].
    eexists. split; [|reflexivity]. apply Hsent. repeat constructor.
Qed.

(** C8. Requests served one at a time.  The steps of a POST, run in a row
    at one instant, make up the handler.  Serving a request keeps the table
    at one row per [full_url] at most; so does any sequence of requests
    served one after another, and from the empty state of a fresh
    deployment no such sequence ever yields two rows for one URL.  A write
    for a URL that has a row, expired or not, leaves the number of rows as
    it was. *)
Theorem single_record_invariant :
  (forall req now (w : world),
      exists answer,
        requests (in_a_row now) [req] w
        = ([Sent answer], snd (GenerateURL.post req now w))
        /\ fst (GenerateURL.post req now w) = Returns answer)
  /\ (forall rqs (w : world),
         single_record w -> single_record (fold_left serve rqs w))
  /\ (forall rqs (r : redis.store) lg,
         single_record (fold_left serve rqs (World None r lg)))
  /\ (forall b now (w : world) t row f,
         db w = Some t ->
         GenerateURL.truthy (json_full_url b) = Some f ->
         sql.select_by_full_url f t = Some row ->
         exists t',
           db (snd (GenerateURL.post b now w)) = Some t'
           /\ List.length t' = List.length t).
Proof.
  assert (forall rqs (w : world),
             single_record w -> single_record (fold_left serve rqs w)) as Hinv.
  { induction rqs as [|rq rqs IH]; intros w H; [exact H|].
    simpl. now apply IH, single_record_serve. }
  split; [exact post_in_a_row|]. split; [exact Hinv|]. split.
  - intros rqs r lg. apply Hinv. intros t [=].
  - intros b now w t row f Hdb Hf Hsel.
    destruct (truthy_cases (json_user_id b)) as [Hu|[u Hu]].
    { apply truthy_none in Hu. rewrite post_no_user_id by exact Hu.
      exists t. now split. }
    rewrite (post_valid b now w u f Hu Hf), Hdb, Hsel. cbn zeta.
    destruct (negb (fst (check_rate_limit u now (rds w)))); [now exists t|].
    destruct (negb (is_link_expired now (created_at row))); [now exists t|].
    eexists. split; [reflexivity | apply update_length].
Qed.

Lemma single_record_invariant_witness :
  single_record
    (fold_left serve
       [PostGenerate (Json (Some "https://a.example/") (Some "1")) 0;
        PostGenerate (Json (Some "https://a.example/") (Some "2")) 700000000]
       (World (Some []) ∅ []))
  /\ exists t',
      db (snd (GenerateURL.post (Json (Some "https://a.example/") (Some "2"))
                 700000000
                 (World (Some [Row 1 "https://a.example/" "e2d259" 0]) ∅ [])))
      = Some t'
      /\ List.length t' = List.length [Row 1 "https://a.example/" "e2d259" 0].
Proof.
  destruct single_record_invariant as (_ & Hinv & _ & Hover).
  split.
  - apply Hinv. intros t [= <-] f. simpl. lia.
  - apply (Hover _ _ _ _ (Row 1 "https://a.example/" "e2d259" 0) "https://a.example/");
      reflexivity.
Defined.

(** Two POSTs of one new URL, as the load test sends them, each looking the
    URL up before the other has written: both insert, both answer 201, and
    the table holds two rows for the URL. *)
Lemma overlapping_posts_store_two_records :
  let f := "https://ruz.spbstu.ru/faculty/125/groups/" in
  let w := create_table (World None ∅ []) in
  let turns := [(0%nat, 0); (1%nat, 0); (0%nat, 0); (1%nat, 0);
                (0%nat, 0); (1%nat, 0)] in
  let ends := requests (turns ++ in_a_row 0 ++ map (fun tn => (1%nat, snd tn)) (in_a_row 0))
                [Json (Some f) (Some "1"); Json (Some f) (Some "2")] w in
  single_record w
  /\ fst ends = [Sent (Response (JsonShortUrl (generate_short_url f)) 201);
                 Sent (Response (JsonShortUrl (generate_short_url f)) 201)]
  /\ db (snd ends) = Some [Row 1 f (generate_short_url f) 0;
                           Row 2 f (generate_short_url f) 0]
  /\ ~ single_record (snd ends).
Proof.
  cbv zeta. split; [|split; [|split]].
  - intros t [= <-] f. simpl. lia.
  - vm_compute. reflexivity.
  - vm_compute. reflexivity.
  - intros H.
    specialize (H [Row 1 "https://ruz.spbstu.ru/faculty/125/groups/"
                     (generate_short_url "https://ruz.spbstu.ru/faculty/125/groups/") 0;
                   Row 2 "https://ruz.spbstu.ru/faculty/125/groups/"
                     (generate_short_url "https://ruz.spbstu.ru/faculty/125/groups/") 0]).
    assert (2 <= 1)%nat as Habs; [|lia].
    apply (H ltac:(vm_compute; reflexivity)
             "https://ruz.spbstu.ru/faculty/125/groups/").
Qed.

Lemma resolve_trichotomy_witness :
  let req := Json (Some "https://a.example/") (Some "1") in
  let w1 := snd (GenerateURL.post req 5000000 (World (Some []) ∅ [])) in
  GetFullURL.get "e2d259" 700000000 w1
  = (Returns (Response (JsonError "This link has expired") 410), w1)
  /\ RedirectURL.get "e2d259" 700000000 w1
     = (Returns (Response (JsonError "This link has expired") 410), w1).
Proof.
  apply (proj2 resolve_trichotomy (Json (Some "https://a.example/") (Some "1"))
           5000000 700000000 (World (Some []) ∅ []) "1" "https://a.example/" []).
  - reflexivity.
  - reflexivity.
  - reflexivity.
  - intros row [].
  - vm_compute. reflexivity.
  - vm_compute. reflexivity.
Defined.

(** * Further properties of the handlers *)

(** ** The stored code is the hash of the stored URL *)

Lemma coded_post b now (w : world) :
  coded w -> coded (snd (GenerateURL.post b now w)).
Proof.
  intros H.
  destruct (truthy_cases (json_user_id b)) as [Hu|[u Hu]].
  { apply truthy_none in Hu. now rewrite post_no_user_id. }
  destruct (truthy_cases (json_full_url b)) as [Hf|[f Hf]].
  { apply truthy_none in Hf. now rewrite (post_no_full_url _ _ _ u Hu Hf). }
  rewrite (post_valid b now w u f Hu Hf). cbn zeta.
  destruct (negb (fst (check_rate_limit u now (rds w)))); [exact H|].
  destruct (db w) as [t|] eqn:Hdb; [|intros t' [=]].
  pose proof (H t Hdb) as Ht.
  destruct (sql.select_by_full_url f t) as [r|] eqn:Hsel.
  - destruct (negb (is_link_expired now (created_at r))); intros t' [= <-] row Hrow.
    + now apply Ht.
    + apply update_in in Hrow as [[Hrow _]|(old & _ & _ & ->)]; [now apply Ht|].
      reflexivity.
  - intros t' [= <-] row Hrow. unfold sql.insert in Hrow.
    apply in_app_or in Hrow as [Hrow|[<-|[]]]; [now apply Ht | reflexivity].
Qed.

Lemma coded_serve (w : world) rq : coded w -> coded (serve w rq).
Proof.
  intros H. destruct rq as [|b now|s now|s now]; simpl.
  - unfold create_table. destruct (db w) eqn:Hdb; [exact H|].
    intros t [= <-] row [].
  - now apply coded_post.
  - rewrite get_full_url_eq. destruct (db w) eqn:Hdb; [exact H|]. intros t [=].
  - intros t Ht. rewrite redirect_db in Ht. now apply H.
Qed.

Lemma coded_run rqs : forall w : world, coded w -> coded (fold_left serve rqs w).
Proof.
  induction rqs as [|rq rqs IH]; intros w H; [exact H|].
  simpl. now apply IH, coded_serve.
Qed.

(** X1. Whatever requests are served, every row keeps the code
    [generate_short_url] gives for its own URL; this holds in every state
    reached from a fresh deployment.  In such a state a POST that answers
    with a short code, be it 200 or 201, answers with the code of the URL
    it was sent. *)
Theorem stored_code_is_code_of_url :
  (forall rqs (w : world), coded w -> coded (fold_left serve rqs w))
  /\ (forall rqs (r : redis.store) lg, coded (fold_left serve rqs (World None r lg)))
  /\ (forall req now (w : world) s c,
         coded w ->
         fst (GenerateURL.post req now w) = Returns (Response (JsonShortUrl s) c) ->
         exists f, json_full_url req = Some f /\ s = generate_short_url f).
Proof.
  split; [exact coded_run|]. split.
  - intros rqs r lg. apply coded_run. intros t [=].
  - intros req now w s c Hc.
    destruct (truthy_cases (json_user_id req)) as [Hu|[u Hu]].
    { apply truthy_none in Hu. rewrite post_no_user_id by exact Hu. discriminate. }
    destruct (truthy_cases (json_full_url req)) as [Hf|[f Hf]].
    { apply truthy_none in Hf. rewrite (post_no_full_url _ _ _ u Hu Hf). discriminate. }
    rewrite (post_valid req now w u f Hu Hf). cbn zeta.
    apply truthy_some in Hf as [Hf _].
    destruct (negb (fst (check_rate_limit u now (rds w)))); [discriminate|].
    destruct (db w) as [t|] eqn:Hdb; [|discriminate].
    destruct (sql.select_by_full_url f t) as [row|] eqn:Hsel.
    + destruct (negb (is_link_expired now (created_at row))).
      * intros [= <- _]. exists f. split; [exact Hf|].
        apply select_by_full_url_some in Hsel as [Hin <-]. now apply (Hc t).
      * intros [= <- _]. now exists f.
    + intros [= <- _]. now exists f.
Qed.

Lemma stored_code_is_code_of_url_witness :
  coded (fold_left serve
           [PostGenerate (Json (Some "https://a.example/") (Some "1")) 0]
           (World (Some []) ∅ []))
  /\ forall s c,
      fst (GenerateURL.post (Json (Some "https://a.example/") (Some "2")) 1000000
             (World (Some [Row 1 "https://a.example/" "e2d259" 0]) ∅ []))
      = Returns (Response (JsonShortUrl s) c) ->
      exists f, Some "https://a.example/" = Some f /\ s = generate_short_url f.
Proof.
  destruct stored_code_is_code_of_url as (Hrun & _ & Hpost).
  split.
  - apply Hrun. intros t [= <-] row [].
  - intros s c.
    apply (Hpost (Json (Some "https://a.example/") (Some "2")) 1000000
                 (World (Some [Row 1 "https://a.example/" "e2d259" 0]) ∅ [])).
    intros t [= <-] row [<-|[]]. vm_compute. reflexivity.
Defined.

(** X2. In a state where every row stores the code of its URL, a code only
    ever resolves to a URL it is the code of: the URL that GET /get/<code>
    returns and the target GET /<code> redirects to hash to that code. *)
Theorem resolved_url_has_the_code short now (w : world) u c :
  coded w ->
  (fst (GetFullURL.get short now w) = Returns (Response (JsonFullUrl u) c)
   \/ fst (RedirectURL.get short now w) = Returns (Response (Location u) c)) ->
  generate_short_url u = short.
Proof.
  intros Hc [H|H];
    [apply get_full_url_found in H | apply redirect_found in H];
    destruct H as (t & r & Hdb & Hsel & _ & <- & _);
    apply select_by_short_url_some in Hsel as [Hin <-];
    symmetry; now apply (Hc t Hdb).
Qed.

Lemma resolved_url_has_the_code_witness :
  generate_short_url "https://a.example/" = "e2d259".
Proof.
  apply (resolved_url_has_the_code "e2d259" 1000000
           (World (Some [Row 1 "https://a.example/" "e2d259" 0]) ∅ [])
           "https://a.example/" 200).
  - intros t [= <-] row [<-|[]]. vm_compute. reflexivity.
  - left. vm_compute. reflexivity.
Defined.

(** ** From a created link back to its URL *)

Lemma select_by_short_url_in s t row :
  In row t -> short_url row = s ->
  exists r, sql.select_by_short_url s t = Some r.
Proof.
  intros Hin Hs. destruct (sql.select_by_short_url s t) as [r|] eqn:E.
  - now exists r.
  - now destruct (proj1 (select_by_short_url_none _ _) E row Hin).
Qed.

(** The rows carrying code [s] after the write of a 201 answer for [f], when
    no other URL held [s] before. *)
Lemma written_rows_with_code f s stamp t t' :
  (sql.select_by_full_url f t = None /\ t' = sql.insert f s stamp t
   \/ (exists r, sql.select_by_full_url f t = Some r)
      /\ t' = sql.update s stamp f t) ->
  (forall row, In row t -> short_url row = s -> full_url row = f) ->
  (exists row, In row t' /\ short_url row = s)
  /\ (forall row, In row t' -> short_url row = s ->
                  full_url row = f /\ created_at row = stamp).
Proof.
  intros [[Hnone ->]|[[r Hr] ->]] Hown.
  - split.
    + eexists. split; [apply in_or_app; right; left; reflexivity | reflexivity].
    + intros row Hin Hs. unfold sql.insert in Hin.
      apply in_app_or in Hin as [Hin|[<-|[]]]; [|now split].
      pose proof (proj1 (select_by_full_url_none _ _) Hnone row Hin) as Hne.
      now destruct Hne; apply Hown.
  - apply select_by_full_url_some in Hr as [Hin Hfu]. split.
    + exists (Row (id r) (full_url r) s stamp). split; [|reflexivity].
      unfold sql.update. apply in_map_iff. exists r. split; [|exact Hin].
      apply String.eqb_eq in Hfu. now rewrite Hfu.
    + intros row Hrow Hs.
      apply update_in in Hrow as [[Hrow Hne]|(old & _ & _ & ->)]; [|now split].
      now destruct Hne; apply Hown.
Qed.

(** X3. A link that POST /generate has just created or refreshed (201) can
    be looked up: provided no row of another URL already carried its code,
    until ten minutes after the stored time stamp GET /get/<code> returns
    the URL with 200, and GET /<code> redirects to it with 302 when the URL
    holds no carriage return or line feed; when it holds one, the redirect
    is answered 500. *)
Theorem created_link_resolves req now later (w : world) u f t s :
  GenerateURL.truthy (json_user_id req) = Some u ->
  GenerateURL.truthy (json_full_url req) = Some f ->
  db w = Some t ->
  fst (GenerateURL.post req now w) = Returns (Response (JsonShortUrl s) 201) ->
  (forall row, In row t -> short_url row = s -> full_url row = f) ->
  later <= strptime (strftime now) + LINK_TTL ->
  let w1 := snd (GenerateURL.post req now w) in
  GetFullURL.get s later w1 = (Returns (Response (JsonFullUrl f) 200), w1)
  /\ (has_newline f = false ->
      RedirectURL.get s later w1 = (Returns (Response (Location f) 302), w1))
  /\ (has_newline f = true ->
      fst (RedirectURL.get s later w1)
      = Returns (Response (JsonError "An error occurred") 500)).
Proof.
  intros Hu Hf Hdb Hcreated Hown Hlater w1.
  assert (exists t1,
             db w1 = Some t1
             /\ (exists row, In row t1 /\ short_url row = s)
             /\ (forall row, In row t1 -> short_url row = s ->
                             full_url row = f /\ created_at row = strftime now))
    as (t1 & Hdb1 & [row [Hin Hcode]] & Hrows).
  { subst w1. revert Hcreated.
    rewrite (post_valid _ _ _ _ _ Hu Hf), Hdb. cbn zeta.
    destruct (negb (fst (check_rate_limit u now (rds w)))); [discriminate|].
    destruct (sql.select_by_full_url f t) as [r|] eqn:Hsel.
    - destruct (negb (is_link_expired now (created_at r))); [discriminate|].
      cbn [fst snd db]. intros [= <-].
      eexists. split; [reflexivity|].
      apply (written_rows_with_code f _ _ t); [|exact Hown].
      right. split; [now exists r | reflexivity].
    - cbn [fst snd db]. intros [= <-].
      eexists. split; [reflexivity|].
      apply (written_rows_with_code f _ _ t); [|exact Hown].
      left. now split. }
  rewrite get_full_url_eq, redirect_url_eq, Hdb1.
  destruct (select_by_short_url_in s t1 row Hin Hcode) as [r Hr].
  pose proof Hr as Hr'.
  apply select_by_short_url_some in Hr as [Hrin Hrs].
  destruct (Hrows r Hrin Hrs) as [Hfu Hstamp].
  assert (is_link_expired later (created_at r) = false) as Hlive.
  { apply is_link_expired_false. now rewrite Hstamp. }
  rewrite (redirect_error_live _ _ _ _ Hr' Hlive), Hfu.
  unfold reply_for_code. rewrite Hr', Hlive, Hfu.
  split; [reflexivity|]. split; intros ->; reflexivity.
Qed.

Lemma created_link_resolves_witness :
  let req := Json (Some "https://a.example/") (Some "1") in
  let w := World (Some [Row 1 "https://a.example/" "e2d259" 0]) ∅ [] in
  let w1 := snd (GenerateURL.post req 700000000 w) in
  GetFullURL.get "e2d259" 1300000000 w1
  = (Returns (Response (JsonFullUrl "https://a.example/") 200), w1)
  /\ RedirectURL.get "e2d259" 1300000000 w1
     = (Returns (Response (Location "https://a.example/") 302), w1).
Proof.
  assert (fst (GenerateURL.post (Json (Some "https://a.example/") (Some "1"))
                 700000000
                 (World (Some [Row 1 "https://a.example/" "e2d259" 0]) ∅ []))
          = Returns (Response (JsonShortUrl "e2d259") 201)) as Hcreated
    by (vm_compute; reflexivity).
  assert (1300000000 <= strptime (strftime 700000000) + LINK_TTL) as Hlater
    by (vm_compute; discriminate).
  assert (forall row,
             In row [Row 1 "https://a.example/" "e2d259" 0] ->
             short_url row = "e2d259" -> full_url row = "https://a.example/")
    as Hown by (intros row [<-|[]] _; reflexivity).
  destruct (created_link_resolves
              (Json (Some "https://a.example/") (Some "1")) 700000000 1300000000
              (World (Some [Row 1 "https://a.example/" "e2d259" 0]) ∅ [])
              "1" "https://a.example/" [Row 1 "https://a.example/" "e2d259" 0]
              "e2d259" eq_refl eq_refl eq_refl Hcreated Hown Hlater)
    as (Hget & Hredirect & _).
  split; [exact Hget | apply Hredirect; reflexivity].
Defined.

(** ** Two URLs with one code *)

Lemma select_short_update s c f t r :
  (forall row, In row t -> full_url row = f -> short_url row = s) ->
  sql.select_by_short_url s t = Some r ->
  full_url r <> f ->
  sql.select_by_short_url s (sql.update s c f t) = Some r.
Proof.
  unfold sql.select_by_short_url, sql.update.
  induction t as [|h t IH]; intros Hcode Hsel Hr; [discriminate|].
  simpl in *. destruct (String.eqb (short_url h) s) eqn:Hs.
  - injection Hsel as ->. apply String.eqb_neq in Hr. rewrite Hr.
    simpl. now rewrite Hs.
  - destruct (String.eqb (full_url h) f) eqn:Hf.
    + apply String.eqb_eq in Hf. apply String.eqb_neq in Hs.
      destruct Hs. apply Hcode; auto.
    + simpl. rewrite Hs. apply IH; auto.
Qed.

Lemma select_short_insert s f s' c t r :
  sql.select_by_short_url s t = Some r ->
  sql.select_by_short_url s (sql.insert f s' c t) = Some r.
Proof.
  unfold sql.select_by_short_url, sql.insert. generalize (sql.next_id t) as i.
  induction t as [|h t IH]; intros i H; [discriminate|].
  simpl in *. destruct (String.eqb (short_url h) s); [exact H | now apply IH].
Qed.

(** X4. Codes are not reserved: when the code of [f] is already carried by
    the row of another URL, a POST for [f] leaves that row the one the code
    resolves to, so the short link handed out for [f] does not lead to [f]:
    the lookup of the code never returns [f] and never redirects to it. *)
Theorem taken_code_keeps_its_url req now later (w : world) f t r :
  coded w ->
  db w = Some t ->
  json_full_url req = Some f ->
  sql.select_by_short_url (generate_short_url f) t = Some r ->
  full_url r <> f ->
  let w1 := snd (GenerateURL.post req now w) in
  (exists t1, db w1 = Some t1
              /\ sql.select_by_short_url (generate_short_url f) t1 = Some r)
  /\ fst (GetFullURL.get (generate_short_url f) later w1)
     <> Returns (Response (JsonFullUrl f) 200)
  /\ fst (RedirectURL.get (generate_short_url f) later w1)
     <> Returns (Response (Location f) 302).
Proof.
  intros Hc Hdb Hf Hsel Hne w1.
  assert (exists t1, db w1 = Some t1
                     /\ sql.select_by_short_url (generate_short_url f) t1 = Some r)
    as (t1 & Hdb1 & Hsel1).
  { subst w1.
    destruct (truthy_cases (json_user_id req)) as [Hu|[u Hu]].
    { apply truthy_none in Hu. rewrite post_no_user_id by exact Hu. now exists t. }
    destruct (truthy_cases (json_full_url req)) as [Hf'|[f' Hf']].
    { apply truthy_none in Hf'. rewrite (post_no_full_url _ _ _ u Hu Hf').
      now exists t. }
    rewrite (post_valid req now w u f' Hu Hf'), Hdb. cbn zeta.
    apply truthy_some in Hf' as [Hf' _].
    assert (f' = f) as -> by congruence.
    destruct (negb (fst (check_rate_limit u now (rds w)))); [now exists t|].
    destruct (sql.select_by_full_url f t) as [row|] eqn:Hrow.
    - destruct (negb (is_link_expired now (created_at row))); [now exists t|].
      eexists. split; [reflexivity|].
      apply select_short_update; auto.
      intros row' Hin <-. now apply (Hc t).
    - eexists. split; [reflexivity|]. now apply select_short_insert. }
  split; [now exists t1|].
  split; intros H;
    [apply get_full_url_found in H | apply redirect_found in H];
    destruct H as (t' & r' & Hdb' & Hsel' & _ & Hfu & _); congruence.
Qed.

Lemma taken_code_keeps_its_url_witness :
  let first := Json (Some "https://a.example/3574") (Some "1") in
  let second := Json (Some "https://a.example/4969") (Some "2") in
  let w := snd (GenerateURL.post first 0 (World (Some []) ∅ [])) in
  let w1 := snd (GenerateURL.post second 1000000 w) in
  fst (GenerateURL.post second 1000000 w)
  = Returns (Response (JsonShortUrl "375c72") 201)
  /\ fst (GetFullURL.get "375c72" 2000000 w1)
     = Returns (Response (JsonFullUrl "https://a.example/3574") 200)
  /\ fst (GetFullURL.get (generate_short_url "https://a.example/4969") 2000000 w1)
     <> Returns (Response (JsonFullUrl "https://a.example/4969") 200).
Proof.
  split; [vm_compute; reflexivity|]. split; [vm_compute; reflexivity|].
  assert (coded (World (Some [Row 1 "https://a.example/3574" "375c72" 0])
                       (rds (snd (GenerateURL.post
                                    (Json (Some "https://a.example/3574") (Some "1"))
                                    0 (World (Some []) ∅ []))))
                       [])) as Hc.
  { intros t [= <-] row [<-|[]]. vm_compute. reflexivity. }
  assert (sql.select_by_short_url (generate_short_url "https://a.example/4969")
            [Row 1 "https://a.example/3574" "375c72" 0]
          = Some (Row 1 "https://a.example/3574" "375c72" 0)) as Hsel
    by (vm_compute; reflexivity).
  assert (full_url (Row 1 "https://a.example/3574" "375c72" 0)
          <> "https://a.example/4969") as Hne by discriminate.
  exact (proj1 (proj2 (taken_code_keeps_its_url
           (Json (Some "https://a.example/4969") (Some "2")) 1000000 2000000
           _ "https://a.example/4969" _ _ Hc eq_refl eq_refl Hsel Hne))).
Defined.

(** ** What a request leaves of the table *)

Lemma kept_refl t : kept t t.
Proof. split; [lia|]. intros i row Hi. now exists row. Qed.

Lemma kept_trans t1 t2 t3 : kept t1 t2 -> kept t2 t3 -> kept t1 t3.
Proof.
  intros [Hl1 H1] [Hl2 H2]. split; [lia|].
  intros i row Hi. destruct (H1 i row Hi) as (row' & Hi' & Hid & Hfu).
  destruct (H2 i row' Hi') as (row'' & Hi'' & Hid' & Hfu').
  exists row''. repeat split; congruence.
Qed.

Lemma kept_update s c f t : kept t (sql.update s c f t).
Proof.
  split; [rewrite update_length; lia|].
  intros i row Hi. destruct (update_lookup s c f t i row Hi) as [Hsame Hother].
  destruct (String.eqb_spec (full_url row) f) as [E|E].
  - eexists. split; [now apply Hsame|]. now split.
  - exists row. split; [now apply Hother|]. now split.
Qed.

Lemma insert_lookup f s c t (i : nat) row :
  t !! i = Some row -> sql.insert f s c t !! i = Some row.
Proof. intros Hi. unfold sql.insert. now apply lookup_app_l_Some. Qed.

Lemma kept_insert f s c t : kept t (sql.insert f s c t).
Proof.
  split; [unfold sql.insert; rewrite length_app; lia|].
  intros i row Hi. exists row. split; [now apply insert_lookup|]. now split.
Qed.

(** The table after a POST: as it was unless the answer is 201, and then
    with the rows of the URL rewritten or one row appended. *)
Lemma post_db_cases req now (w : world) t :
  db w = Some t ->
  (db (snd (GenerateURL.post req now w)) = Some t
   /\ status_is (fun c => c <> 201) (fst (GenerateURL.post req now w)))
  \/ exists f,
      json_full_url req = Some f
      /\ status_is (fun c => c = 201) (fst (GenerateURL.post req now w))
      /\ (db (snd (GenerateURL.post req now w))
          = Some (sql.update (generate_short_url f) (strftime now) f t)
          \/ db (snd (GenerateURL.post req now w))
             = Some (sql.insert f (generate_short_url f) (strftime now) t)).
Proof.
  intros Hdb. unfold status_is.
  destruct (truthy_cases (json_user_id req)) as [Hu|[u Hu]].
  { apply truthy_none in Hu. rewrite post_no_user_id by exact Hu.
    left. split; [exact Hdb|]. do 2 eexists. split; [reflexivity | discriminate]. }
  destruct (truthy_cases (json_full_url req)) as [Hf|[f Hf]].
  { apply truthy_none in Hf. rewrite (post_no_full_url _ _ _ u Hu Hf).
    left. split; [exact Hdb|]. do 2 eexists. split; [reflexivity | discriminate]. }
  rewrite (post_valid req now w u f Hu Hf), Hdb. cbn zeta.
  apply truthy_some in Hf as [Hf _].
  destruct (negb (fst (check_rate_limit u now (rds w)))).
  { left. split; [reflexivity|]. do 2 eexists. split; [reflexivity | discriminate]. }
  destruct (sql.select_by_full_url f t) as [row|].
  - destruct (negb (is_link_expired now (created_at row))).
    + left. split; [reflexivity|]. do 2 eexists. split; [reflexivity | discriminate].
    + right. exists f. split; [exact Hf|]. split; [|left; reflexivity].
      do 2 eexists. split; reflexivity.
  - right. exists f. split; [exact Hf|]. split; [|right; reflexivity].
    do 2 eexists. split; reflexivity.
Qed.

Lemma serve_kept (w : world) rq t :
  db w = Some t -> exists t', db (serve w rq) = Some t' /\ kept t t'.
Proof.
  intros Hdb. destruct rq as [|b now|s now|s now]; simpl.
  - unfold create_table. rewrite Hdb. exists t. split; [exact Hdb | apply kept_refl].
  - destruct (post_db_cases b now w t Hdb) as [[-> _]|(f & _ & _ & [->| ->])];
      eexists; (split; [reflexivity|]);
      [apply kept_refl | apply kept_update | apply kept_insert].
  - rewrite get_full_url_eq, Hdb. exists t. split; [exact Hdb | apply kept_refl].
  - rewrite redirect_db. exists t. split; [exact Hdb | apply kept_refl].
Qed.

(** X5. POST /generate writes to the table only when it answers 201.  Even
    then it adds one row at most, removes none, keeps the place, id and URL
    of every row, and leaves the rows of other URLs exactly as they were.
    So over any sequence of requests no row is ever lost or re-keyed. *)
Theorem requests_keep_the_rows :
  (forall req now (w : world) b c,
      fst (GenerateURL.post req now w) = Returns (Response b c) ->
      c <> 201 ->
      db (snd (GenerateURL.post req now w)) = db w)
  /\ (forall req now (w : world) t,
         db w = Some t ->
         exists t',
           db (snd (GenerateURL.post req now w)) = Some t'
           /\ (List.length t' <= List.length t + 1)%nat
           /\ kept t t'
           /\ forall (i : nat) row,
               t !! i = Some row ->
               json_full_url req <> Some (full_url row) ->
               t' !! i = Some row)
  /\ (forall rqs (w : world) t,
         db w = Some t ->
         exists t', db (fold_left serve rqs w) = Some t' /\ kept t t').
Proof.
  split; [|split].
  - intros req now w b c Hans Hc.
    destruct (db w) as [t|] eqn:Hdb.
    + destruct (post_db_cases req now w t Hdb)
        as [[-> _]|(f & _ & (b' & c' & Hans' & ->) & _)]; [reflexivity|].
      congruence.
    + destruct (truthy_cases (json_user_id req)) as [Hu|[u Hu]].
      { apply truthy_none in Hu. now rewrite post_no_user_id. }
      destruct (truthy_cases (json_full_url req)) as [Hf|[f Hf]].
      { apply truthy_none in Hf. now rewrite (post_no_full_url _ _ _ u Hu Hf). }
      rewrite (post_valid req now w u f Hu Hf), Hdb. cbn zeta.
      now destruct (negb (fst (check_rate_limit u now (rds w)))).
  - intros req now w t Hdb.
    destruct (post_db_cases req now w t Hdb) as [[-> _]|(f & Hf & _ & [->| ->])];
      eexists; (split; [reflexivity|]).
    + split; [lia|]. split; [apply kept_refl|]. auto.
    + split; [rewrite update_length; lia|]. split; [apply kept_update|].
      intros i row Hi Hne. apply (update_lookup _ _ _ _ _ _ Hi). congruence.
    + split; [unfold sql.insert; rewrite length_app; simpl; lia|].
      split; [apply kept_insert|].
      intros i row Hi _. now apply insert_lookup.
  - induction rqs as [|rq rqs IH]; intros w t Hdb.
    + exists t. split; [exact Hdb | apply kept_refl].
    + simpl. destruct (serve_kept w rq t Hdb) as (t1 & Hdb1 & Hk1).
      destruct (IH _ t1 Hdb1) as (t' & Hdb' & Hk').
      exists t'. split; [exact Hdb' | now apply (kept_trans t t1 t')].
Qed.

Lemma requests_keep_the_rows_witness :
  let w := World (Some [Row 1 "https://a.example/" "e2d259" 0]) ∅ [] in
  db (snd (GenerateURL.post (Json (Some "https://a.example/") (Some "1")) 1000000 w))
  = db w
  /\ exists t',
      db (fold_left serve
            [PostGenerate (Json (Some "https://b.example/") (Some "1")) 2000000;
             PostGenerate (Json (Some "https://a.example/") (Some "2")) 900000000]
            w) = Some t'
      /\ kept [Row 1 "https://a.example/" "e2d259" 0] t'.
Proof.
  destruct requests_keep_the_rows as (Hsame & _ & Hrun).
  split.
  - apply (Hsame _ _ _ (JsonShortUrl "e2d259") 200); [vm_compute; reflexivity|].
    discriminate.
  - apply Hrun. reflexivity.
Defined.

(** ** Internal errors and the error log *)

Lemma status_is_500_dec b c :
  status_is (fun c => c = 500) (Returns (Response b c)) <-> c = 500.
Proof.
  unfold status_is. split.
  - intros (b' & c' & [= -> ->] & Hc). exact Hc.
  - intros ->. now exists b, 500.
Qed.

(** How POST /generate ends, as far as internal errors go. *)
Lemma post_outcome req now (w : world) :
  exists b c,
    fst (GenerateURL.post req now w) = Returns (Response b c)
    /\ (c = 500 <->
        db w = None
        /\ exists u f,
            GenerateURL.truthy (json_user_id req) = Some u
            /\ GenerateURL.truthy (json_full_url req) = Some f
            /\ fst (check_rate_limit u now (rds w)) = true)
    /\ app_errors_log (snd (GenerateURL.post req now w))
       = if c =? 500
         then (app_errors_log w
               ++ [(now, OperationalError "no such table: url_map")])%list
         else app_errors_log w.
Proof.
  destruct (truthy_cases (json_user_id req)) as [Hu|[u Hu]].
  { apply truthy_none in Hu. rewrite post_no_user_id by exact Hu.
    do 2 eexists. split; [reflexivity|]. split; [|reflexivity].
    split; [discriminate|]. intros (_ & u & f & Hu' & _). congruence. }
  destruct (truthy_cases (json_full_url req)) as [Hf|[f Hf]].
  { apply truthy_none in Hf. rewrite (post_no_full_url _ _ _ u Hu Hf).
    do 2 eexists. split; [reflexivity|]. split; [|reflexivity].
    split; [discriminate|]. intros (_ & u' & f & _ & Hf' & _). congruence. }
  rewrite (post_valid req now w u f Hu Hf). cbn zeta.
  destruct (fst (check_rate_limit u now (rds w))) eqn:Hok; cbn [negb].
  - destruct (db w) as [t|] eqn:Hdb.
    + destruct (sql.select_by_full_url f t) as [row|];
        [destruct (negb (is_link_expired now (created_at row)))|];
        do 2 eexists; (split; [reflexivity|]); (split; [|reflexivity]);
        (split; [discriminate|]); intros [[=] _].
    + do 2 eexists. split; [reflexivity|]. split; [|reflexivity].
      split; [|reflexivity]. intros _. split; [reflexivity|].
      now exists u, f.
  - do 2 eexists. split; [reflexivity|]. split; [|reflexivity].
    split; [discriminate|].
    intros (_ & u' & f' & Hu' & _ & Hok'). congruence.
Qed.

Lemma get_outcome found code short now (w : world) :
  code <> 500 ->
  exists b c,
    Returns (match db w with
             | Some t => reply_for_code (fun f => (found f, code)) short now t
             | None => Response (JsonError "An error occurred") 500
             end) = Returns (Response b c)
    /\ (c = 500 <-> db w = None).
Proof.
  intros Hcode. destruct (db w) as [t|]; unfold reply_for_code.
  - destruct (sql.select_by_short_url short t) as [r|];
      [destruct (is_link_expired now (created_at r))|];
      do 2 eexists; (split; [reflexivity|]); split; try discriminate; congruence.
  - do 2 eexists. split; [reflexivity|]. split; reflexivity.
Qed.

Lemma get_status_500 found code short now (w : world) :
  code <> 500 ->
  status_is (fun c => c = 500)
    (Returns (match db w with
              | Some t => reply_for_code (fun f => (found f, code)) short now t
              | None => Response (JsonError "An error occurred") 500
              end))
  <-> db w = None.
Proof.
  intros Hcode.
  destruct (get_outcome found code short now w Hcode) as (b & c & Hans & Hc).
  rewrite Hans, status_is_500_dec. exact Hc.
Qed.

(** X6. Each answer of a handler is a response, and an answer 500 is the
    one thing that writes to the error log: it appends exactly one entry,
    stamped with the instant of the request, and any other answer leaves
    the log as it was. *)
Theorem error_log_grows_by_one_per_500 now (w : world) :
  (forall req,
      exists b c,
        fst (GenerateURL.post req now w) = Returns (Response b c)
        /\ (c = 500 ->
            exists e, app_errors_log (snd (GenerateURL.post req now w))
                      = (app_errors_log w ++ [(now, e)])%list)
        /\ (c <> 500 ->
            app_errors_log (snd (GenerateURL.post req now w)) = app_errors_log w))
  /\ (forall short,
         exists b c,
           fst (GetFullURL.get short now w) = Returns (Response b c)
           /\ (c = 500 ->
               exists e, app_errors_log (snd (GetFullURL.get short now w))
                         = (app_errors_log w ++ [(now, e)])%list)
           /\ (c <> 500 ->
               app_errors_log (snd (GetFullURL.get short now w))
               = app_errors_log w))
  /\ (forall short,
         exists b c,
           fst (RedirectURL.get short now w) = Returns (Response b c)
           /\ (c = 500 ->
               exists e, app_errors_log (snd (RedirectURL.get short now w))
                         = (app_errors_log w ++ [(now, e)])%list)
           /\ (c <> 500 ->
               app_errors_log (snd (RedirectURL.get short now w))
               = app_errors_log w)).
Proof.
  split; [|split].
  - intros req. destruct (post_outcome req now w) as (b & c & Hans & _ & Hlog).
    exists b, c. split; [exact Hans|]. split.
    + intros ->. eexists. exact Hlog.
    + intros Hc. rewrite Hlog. destruct (Z.eqb_spec c 500); [contradiction|reflexivity].
  - intros short. rewrite get_full_url_eq.
    destruct (get_outcome JsonFullUrl 200 short now w) as (b & c & Hans & Hc);
      [discriminate|].
    exists b, c. destruct (db w) as [t|]; cbn [fst snd app_errors_log].
    + split; [exact Hans|]. split; [|reflexivity].
      intros H. apply Hc in H. discriminate.
    + split; [exact Hans|]. split; [intros _; now eexists|].
      intros H. destruct H. now apply Hc.
  - intros short. rewrite redirect_url_eq.
    destruct (get_outcome Location 302 short now w) as (b & c & Hans & Hc);
      [discriminate|].
    destruct (db w) as [t|]; [destruct (redirect_error short now t) as [e|]|];
      cbn [fst snd app_errors_log].
    + do 2 eexists. split; [reflexivity|]. split; [intros _; now exists e|].
      intros H. now destruct H.
    + exists b, c. split; [exact Hans|]. split; [|reflexivity].
      intros H. apply Hc in H. discriminate.
    + exists b, c. split; [exact Hans|]. split; [intros _; now eexists|].
      intros H. destruct H. now apply Hc.
Qed.

Lemma error_log_grows_by_one_per_500_witness :
  exists b c,
    fst (GetFullURL.get "e2d259" 7000000 (World None ∅ []))
    = Returns (Response b c)
    /\ (c = 500 ->
        exists e, app_errors_log (snd (GetFullURL.get "e2d259" 7000000
                                         (World None ∅ [])))
                  = ([] ++ [(7000000, e)])%list)
    /\ (c <> 500 ->
        app_errors_log (snd (GetFullURL.get "e2d259" 7000000 (World None ∅ [])))
        = []).
Proof.
  exact (proj1 (proj2 (error_log_grows_by_one_per_500 7000000 (World None ∅ [])))
               "e2d259").
Defined.

(** ** The rate limiter under load *)

Lemma user_key_inj u v : user_key u = user_key v -> u = v.
Proof. unfold user_key. simpl. intros H. now inversion H. Qed.

Lemma in_flight_cons u us now (r : redis.store) :
  in_flight (u :: us) now r = in_flight us now (apply_event r (Admission u now)).
Proof. reflexivity. Qed.

Lemma counter_in_flight us now v :
  forall r : redis.store,
    counter now total_key (in_flight us now r)
    = counter now total_key r + Z.of_nat (List.length us)
    /\ counter now (user_key v) (in_flight us now r)
       = counter now (user_key v) r + Z.of_nat (count_occ String.string_dec us v).
Proof.
  induction us as [|u us IH]; intros r.
  - unfold in_flight. simpl. lia.
  - rewrite in_flight_cons.
    destruct (IH (apply_event r (Admission u now))) as [-> ->].
    destruct (counter_admission u now r) as [Hu ->].
    cbn [List.length count_occ]. split; [lia|].
    destruct (String.string_dec u v) as [->|Hne].
    + rewrite Hu. lia.
    + rewrite apply_admission.
      rewrite counter_bump_ne by apply user_key_total_key.
      rewrite counter_bump_ne; [reflexivity|].
      intros H. apply user_key_inj in H. congruence.
Qed.

(** X8. With the requests of the users [us] all admitted and none released,
    and counters that read zero before, the global count is the number of
    those requests and the count of a user is the number of his own; one
    more request of [v] is admitted exactly when fewer than 100 requests
    are in flight in all and fewer than 100 of them are requests of [v].
    So 100 requests in flight shut out every user, also one who has none. *)
Theorem limiter_counts_requests_in_flight us v now (r : redis.store) :
  counter now total_key r = 0 ->
  (forall u, counter now (user_key u) r = 0) ->
  counter now total_key (in_flight us now r) = Z.of_nat (List.length us)
  /\ counter now (user_key v) (in_flight us now r)
     = Z.of_nat (count_occ String.string_dec us v)
  /\ (fst (check_rate_limit v now (in_flight us now r)) = true
      <-> (List.length us < 100)%nat
          /\ (count_occ String.string_dec us v < 100)%nat).
Proof.
  intros Ht Hu.
  destruct (counter_in_flight us now v r) as [Htot Huser].
  rewrite Ht in Htot. rewrite Hu in Huser.
  split; [lia|]. split; [lia|].
  rewrite check_rate_limit_allowed, Htot, Huser.
  rewrite negb_true_iff, orb_false_iff, !Z.gtb_ltb, !Z.ltb_ge. lia.
Qed.

Lemma counter_empty now k : counter now k (∅ : redis.store) = 0.
Proof. unfold counter, redis.get, redis.find. now rewrite lookup_empty. Qed.

Lemma limiter_counts_requests_in_flight_witness :
  counter 0 total_key (in_flight (repeat "1" 52 ++ repeat "2" 48)%list 0 ∅) = 100
  /\ fst (check_rate_limit "3" 0 (in_flight (repeat "1" 52 ++ repeat "2" 48)%list 0 ∅))
     <> true.
Proof.
  destruct (limiter_counts_requests_in_flight
              (repeat "1" 52 ++ repeat "2" 48)%list "3" 0 ∅
              (counter_empty 0 total_key)
              (fun u => counter_empty 0 (user_key u))) as (Htot & _ & Hiff).
  split; [exact Htot|].
  intros H. apply Hiff in H as [H _]. vm_compute in H. lia.
Defined.

(** ** The sixty seconds of a counter *)

Lemma admission_lookup u t k (r : redis.store) :
  k = user_key u \/ k = total_key ->
  snd (check_rate_limit u t r) !! k
  = Some (redis.Entry (counter t k r + 1) (Some (t + REQUEST_TTL * 1000000))).
Proof.
  pose proof (user_key_total_key u) as Hne.
  intros Hk. rewrite check_rate_limit_eq. cbn [snd].
  destruct Hk as [->| ->].
  - rewrite bump_lookup_ne by exact Hne. apply bump_lookup.
  - rewrite bump_lookup. now rewrite counter_bump_ne by congruence.
Qed.

Lemma counter_after_admission u t t' k (r : redis.store) :
  k = user_key u \/ k = total_key ->
  counter t' k (snd (check_rate_limit u t r))
  = if t' <=? t + REQUEST_TTL * 1000000 then counter t k r + 1 else 0.
Proof.
  intros Hk. rewrite counter_find. unfold redis.find.
  rewrite (admission_lookup u t k r Hk). unfold redis.live. simpl.
  now destruct (t' <=? t + REQUEST_TTL * 1000000).
Qed.

Lemma drop_absent t k (r : redis.store) :
  redis.find t k r = None -> drop t k r = r.
Proof. intros H. unfold drop. now rewrite H. Qed.

(** X9. An admission counts for sixty seconds.  Up to sixty seconds after
    [check_rate_limit] ran, both counters read one more than they read
    before it.  Later than that both read zero, whatever they held and
    whether or not the request was ever released: the same user is admitted
    again, and the late release of the old request changes nothing in the
    store. *)
Theorem admission_lapses_after_sixty_seconds u t t' (r : redis.store) :
  let r' := snd (check_rate_limit u t r) in
  (t' <= t + 60000000 ->
   counter t' (user_key u) r' = counter t (user_key u) r + 1
   /\ counter t' total_key r' = counter t total_key r + 1)
  /\ (t' > t + 60000000 ->
      counter t' (user_key u) r' = 0
      /\ counter t' total_key r' = 0
      /\ fst (check_rate_limit u t' r') = true
      /\ release u t' r' = r').
Proof.
  intros r'. subst r'.
  pose proof (counter_after_admission u t t' (user_key u) r (or_introl eq_refl)) as Hu.
  pose proof (counter_after_admission u t t' total_key r (or_intror eq_refl)) as Ht.
  change (REQUEST_TTL * 1000000) with 60000000 in *.
  split; intros Hle.
  - apply Z.leb_le in Hle. rewrite Hle in *. now split.
  - assert ((t' <=? t + 60000000) = false) as Hgt by (apply Z.leb_gt; lia).
    rewrite Hgt in *. split; [exact Hu|]. split; [exact Ht|]. split.
    + rewrite check_rate_limit_allowed, Hu, Ht. reflexivity.
    + rewrite release_eq.
      assert (forall k, k = user_key u \/ k = total_key ->
                        redis.find t' k (snd (check_rate_limit u t r)) = None) as Hnone.
      { intros k Hk. unfold redis.find. rewrite (admission_lookup u t k r Hk).
        unfold redis.live. simpl.
        change (REQUEST_TTL * 1000000) with 60000000. now rewrite Hgt. }
      rewrite (drop_absent t' (user_key u)) by (apply Hnone; now left).
      apply drop_absent, Hnone. now right.
Qed.

Lemma admission_lapses_after_sixty_seconds_witness :
  let r' := snd (check_rate_limit "1" 0 (in_flight (repeat "1" 150) 0 ∅)) in
  counter 60000001 (user_key "1") r' = 0
  /\ counter 60000001 total_key r' = 0
  /\ fst (check_rate_limit "1" 60000001 r') = true
  /\ release "1" 60000001 r' = r'.
Proof.
  apply (proj2 (admission_lapses_after_sixty_seconds
                  "1" 0 60000001 (in_flight (repeat "1" 150) 0 ∅))).
  reflexivity.
Defined.

(** ** Requests of many users for one URL *)










(** ** How long a link lives *)

Lemma strftime_bounds t :
  strptime (strftime t) <= t < strptime (strftime t) + 1000000.
Proof.
  unfold strptime, strftime.
  pose proof (Z.div_mod t 1000000 ltac:(lia)).
  pose proof (Z.mod_pos_bound t 1000000 ltac:(lia)). lia.
Qed.

(** X11. The time stamp of a record keeps whole seconds only, so the ten
    minutes of a link run from the start of the second in which it was
    written: a link written at [now] is still live 599.000001 seconds
    later and is expired once more than 600 seconds have passed, and both
    bounds are reached.  Reading back a stored stamp changes nothing. *)
Theorem link_lives_between_599_and_600_seconds :
  (forall now later,
      (later <= now + 599000001 -> is_link_expired later (strftime now) = false)
      /\ (later > now + 600000000 -> is_link_expired later (strftime now) = true))
  /\ (forall stamp, strftime (strptime stamp) = stamp)
  /\ is_link_expired (999999 + 599000002) (strftime 999999) = true
  /\ is_link_expired (1000000 + 600000000) (strftime 1000000) = false.
Proof.
  split; [|split; [|split; reflexivity]].
  - intros now later. pose proof (strftime_bounds now) as Hb.
    split; intros H.
    + apply is_link_expired_false. unfold LINK_TTL. lia.
    + apply is_link_expired_true. unfold LINK_TTL. lia.
  - intros stamp. unfold strftime, strptime. apply Z.div_mul. lia.
Qed.

Lemma link_lives_between_599_and_600_seconds_witness :
  is_link_expired (1234567 + 599000001) (strftime 1234567) = false
  /\ is_link_expired (1234567 + 600000001) (strftime 1234567) = true.
Proof.
  destruct (proj1 link_lives_between_599_and_600_seconds
              1234567 (1234567 + 599000001)) as [Hlive _].
  destruct (proj1 link_lives_between_599_and_600_seconds
              1234567 (1234567 + 600000001)) as [_ Hdead].
  split; [apply Hlive | apply Hdead]; lia.
Defined.

(** ** What a request leaves of the counters *)

Lemma post_rds_frame req now (w : world) k :
  k <> total_key ->
  (forall u, json_user_id req = Some u -> k <> user_key u) ->
  rds (snd (GenerateURL.post req now w)) !! k = rds w !! k.
Proof.
  intros Htot Huser.
  destruct (truthy_cases (json_user_id req)) as [Hu|[u Hu]].
  { apply truthy_none in Hu. now rewrite post_no_user_id. }
  destruct (truthy_cases (json_full_url req)) as [Hf|[f Hf]].
  { apply truthy_none in Hf. now rewrite (post_no_full_url _ _ _ u Hu Hf). }
  rewrite (post_rds req now w u f Hu Hf), release_eq, check_rate_limit_eq.
  cbn [snd]. apply truthy_some in Hu as [Hu _].
  pose proof (Huser u Hu).
  now rewrite !drop_lookup_ne, !bump_lookup_ne.
Qed.

(** X12. A request touches two counters, the global one and the one of its
    own user: whatever it is answered, a POST leaves the key of every other
    user, and every key that is not a counter of the service, exactly as it
    was, and the two lookups leave the whole store as it was. *)
Theorem requests_touch_their_own_counters_only :
  (forall req now (w : world) u,
      json_user_id req <> Some u ->
      rds (snd (GenerateURL.post req now w)) !! user_key u = rds w !! user_key u)
  /\ (forall req now (w : world) k,
         k <> total_key -> (forall u, k <> user_key u) ->
         rds (snd (GenerateURL.post req now w)) !! k = rds w !! k)
  /\ (forall short now (w : world),
         rds (snd (GetFullURL.get short now w)) = rds w
         /\ rds (snd (RedirectURL.get short now w)) = rds w).
Proof.
  split; [|split].
  - intros req now w u Hne. apply post_rds_frame.
    + apply user_key_total_key.
    + intros v Hv Hk. apply user_key_inj in Hk. congruence.
  - intros req now w k Htot Huser. apply post_rds_frame; auto.
  - intros short now w. split; [|apply redirect_rds].
    rewrite get_full_url_eq. now destruct (db w).
Qed.

Lemma requests_touch_their_own_counters_only_witness :
  let w := World (Some []) (in_flight ["2"; "2"; "3"] 0 ∅) [] in
  rds (snd (GenerateURL.post (Json (Some "https://a.example/") (Some "1")) 1000000 w))
    !! user_key "2"
  = rds w !! user_key "2".
Proof.
  apply (proj1 requests_touch_their_own_counters_only
           (Json (Some "https://a.example/") (Some "1"))).
  discriminate.
Defined.


(** ** The handler on any body *)

Lemma any_post_finally_eq now v (w : world) :
  v <> AnyBody.Absent ->
  AnyBody.post_finally now (AnyBody.Locals v true, w)
  = (Next tt, (AnyBody.Locals v true,
               World (db w) (release (AnyBody.format v) now (rds w))
                     (app_errors_log w))).
Proof.
  intros Hv. rewrite release_eq. unfold AnyBody.post_finally.
  unfold mbind at 1, action_bind at 1, AnyBody.read_locals at 1. simpl.
  unfold mbind at 1, action_bind at 1.
  destruct v as [|s|b s o]; [contradiction| |]; simpl;
    rewrite guarded_decr_eq; rewrite guarded_decr_eq; reflexivity.
Qed.

Lemma truth_not_absent v : AnyBody.truth v = true -> v <> AnyBody.Absent.
Proof. intros H ->. discriminate. Qed.

(** The handler in closed form. *)
Lemma any_post_eq body now (w : world) :
  AnyBody.post body now w
  = match body with
    | AnyBody.NotJson =>
        (Returns (Response (JsonError "An error occurred") 500),
         World (db w) (rds w)
           (app_errors_log w ++ [(now, BadRequest "the body is not JSON")]))
    | AnyBody.NotObject =>
        (Returns (Response (JsonError "An error occurred") 500),
         World (db w) (rds w)
           (app_errors_log w
            ++ [(now, AttributeError "object has no attribute 'get'")]))
    | AnyBody.Object full_url user_id =>
        if negb (AnyBody.truth user_id)
        then (Returns (Response (JsonError "user_id is required") 400), w)
        else if negb (AnyBody.truth full_url)
        then (Returns (Response (JsonError "URL is required") 400), w)
        else
          let u := AnyBody.format user_id in
          let r' := release u now (snd (check_rate_limit u now (rds w))) in
          if negb (fst (check_rate_limit u now (rds w))) then
            (Returns (Response (JsonError "Too many concurrent requests. Please try again later.") 429),
             World (db w) r' (app_errors_log w))
          else
            match db w with
            | None =>
                (Returns (Response (JsonError "An error occurred") 500),
                 World None r'
                   (app_errors_log w
                    ++ [(now, OperationalError "no such table: url_map")]))
            | Some t =>
                match lookup full_url t with
                | None =>
                    (Returns (Response (JsonError "An error occurred") 500),
                     World (Some t) r'
                       (app_errors_log w
                        ++ [(now, InterfaceError "Error binding parameter 0")]))
                | Some row =>
                    match live_row now row with
                    | Some r =>
                        (Returns (Response (JsonShortUrl (short_url r)) 200),
                         World (Some t) r' (app_errors_log w))
                    | None =>
                        match full_url with
                        | AnyBody.Text f =>
                            (Returns (Response (JsonShortUrl (generate_short_url f)) 201),
                             World (Some (match row with
                                          | Some _ =>
                                              sql.update (generate_short_url f)
                                                         (strftime now) f t
                                          | None =>
                                              sql.insert f (generate_short_url f)
                                                         (strftime now) t
                                          end))
                                   r' (app_errors_log w))
                        | _ =>
                            (Returns (Response (JsonError "An error occurred") 500),
                             World (Some t) r'
                               (app_errors_log w
                                ++ [(now, AttributeError
                                            "object has no attribute 'encode'")]))
                        end
                    end
                end
            end
    end.
Proof.
  destruct w as [d r lg].
  unfold AnyBody.post, call, try_finally, try_except, AnyBody.post_try.
  destruct body as [| |full_url user_id]; [reflexivity|reflexivity|].
  unfold internal_error, log_error.
  unfold mbind, action_bind, AnyBody.assign_user_id, on_redis,
    AnyBody.assign_counters_increased, return_, raise, pass, mret, action_ret,
    AnyBody.select_by_full_url, execute.
  cbn [db rds app_errors_log AnyBody.user_id AnyBody.counters_increased fst snd].
  destruct (AnyBody.truth user_id) eqn:Hu; cbn [negb]; [|reflexivity].
  destruct (AnyBody.truth full_url) eqn:Hf; cbn [negb]; [|reflexivity].
  apply truth_not_absent in Hu.
  cbn beta iota zeta
      delta [db rds app_errors_log AnyBody.user_id AnyBody.counters_increased fst snd].
  destruct (check_rate_limit (AnyBody.format user_id) now r) as [ok r1].
  cbn [fst snd].
  destruct ok; cbn; [|rewrite any_post_finally_eq by exact Hu; reflexivity].
  destruct d as [t|]; cbn; [|rewrite any_post_finally_eq by exact Hu; reflexivity].
  destruct full_url as [|f|b s [x|]]; try discriminate; cbn;
    try (rewrite any_post_finally_eq by exact Hu; reflexivity).
  - destruct (sql.select_by_full_url f t) as [row|]; cbn;
      [destruct (is_link_expired now (created_at row)); cbn|];
      rewrite any_post_finally_eq by exact Hu; reflexivity.
  - destruct (sql.select_by_full_url x t) as [row|]; cbn;
      [destruct (is_link_expired now (created_at row)); cbn|];
      rewrite any_post_finally_eq by exact Hu; reflexivity.
Qed.

Lemma truth_of_option v :
  AnyBody.truth (AnyBody.of_option v) = false <-> missing_or_empty v.
Proof.
  rewrite <- truthy_none. destruct v as [s|]; simpl; [|tauto].
  destruct (String.eqb s ""); simpl; split; congruence.
Qed.

Lemma truth_of_option_true v :
  AnyBody.truth (AnyBody.of_option v) = true ->
  exists s, v = Some s /\ GenerateURL.truthy v = Some s.
Proof.
  destruct v as [s|]; simpl; [|discriminate].
  destruct (String.eqb s ""); simpl; [discriminate|]. now exists s.
Qed.

(** On the bodies that follow [url_model] the handler is [GenerateURL.post]. *)
Lemma any_post_typed req now (w : world) :
  AnyBody.post (AnyBody.typed req) now w = GenerateURL.post req now w.
Proof.
  rewrite any_post_eq. unfold AnyBody.typed.
  destruct (AnyBody.truth (AnyBody.of_option (json_user_id req))) eqn:Hu; cbn [negb].
  2:{ apply truth_of_option, truthy_none in Hu. now rewrite post_no_user_id. }
  apply truth_of_option_true in Hu as (u & Hu & Hu').
  destruct (AnyBody.truth (AnyBody.of_option (json_full_url req))) eqn:Hf; cbn [negb].
  2:{ apply truth_of_option, truthy_none in Hf.
      now rewrite (post_no_full_url _ _ _ u Hu' Hf). }
  apply truth_of_option_true in Hf as (f & Hf & Hf').
  rewrite (post_valid req now w u f Hu' Hf'), Hu, Hf. cbn zeta.
  cbn [AnyBody.of_option AnyBody.format lookup].
  destruct (negb (fst (check_rate_limit u now (rds w)))); [reflexivity|].
  destruct (db w) as [t|]; [|reflexivity].
  destruct (sql.select_by_full_url f t) as [row|]; cbn [live_row]; [|reflexivity].
  now destruct (is_link_expired now (created_at row)).
Qed.

(** ** The status of a POST, read backwards *)

#[local] Set Warnings "-clear-no-such-hyp".

Lemma status_is_eq b c0 c :
  status_is (fun c' => c' = c) (Returns (Response b c0)) <-> c0 = c.
Proof.
  unfold status_is. split.
  - intros (b' & c' & [= -> ->] & Hc). exact Hc.
  - intros ->. now exists b, c.
Qed.

(** X13. The status of POST /generate tells what the request met, for a
    JSON object with fields of any type.  It is 400 exactly when [user_id]
    or [full_url] is false in Python's sense (missing, null, empty, zero);
    429 exactly when both are true and the limiter refuses; 200 exactly
    when, accepted, the lookup finds a record that is not expired; 201
    exactly when, accepted on a created table, [full_url] is a string with
    no record or an expired one; 500 in the cases that are left: accepted,
    and the table is missing, or [full_url] cannot be bound, or it is not a
    string and no live record is found for it.  For the bodies that follow
    [url_model], false means missing or empty, and the handler is the one
    the other properties are about. *)
Theorem post_status_table fu uid now (w : world) :
  let status c :=
    status_is (fun c' => c' = c)
              (fst (AnyBody.post (AnyBody.Object fu uid) now w)) in
  let asked := AnyBody.truth uid = true /\ AnyBody.truth fu = true in
  let accepted := fst (check_rate_limit (AnyBody.format uid) now (rds w)) in
  (status 400 <-> AnyBody.truth uid = false \/ AnyBody.truth fu = false)
  /\ (status 429 <-> asked /\ accepted = false)
  /\ (status 200 <->
      asked /\ accepted = true
      /\ exists t r, db w = Some t /\ lookup fu t = Some (Some r)
                     /\ now <= strptime (created_at r) + LINK_TTL)
  /\ (status 201 <->
      asked /\ accepted = true
      /\ exists t f, db w = Some t /\ fu = AnyBody.Text f
          /\ (sql.select_by_full_url f t = None
              \/ exists r, sql.select_by_full_url f t = Some r
                           /\ now > strptime (created_at r) + LINK_TTL))
  /\ (status 500 <->
      asked /\ accepted = true
      /\ (db w = None
          \/ exists t, db w = Some t
              /\ (lookup fu t = None
                  \/ (forall f, fu <> AnyBody.Text f)
                     /\ forall r, lookup fu t = Some (Some r) ->
                                  now > strptime (created_at r) + LINK_TTL)))
  /\ (forall v, AnyBody.truth (AnyBody.of_option v) = false <-> missing_or_empty v)
  /\ (forall req,
         AnyBody.post (AnyBody.typed req) now w = GenerateURL.post req now w).
Proof.
  intros status asked accepted. subst status asked accepted. cbn beta.
  rewrite any_post_eq.
  split; [|split; [|split; [|split; [|split; [|split]]]]];
    try exact truth_of_option; try (intros req; apply any_post_typed).
  all: destruct (AnyBody.truth uid) eqn:Hu; cbn [negb fst];
    [|rewrite status_is_eq; split; try discriminate; naive_solver].
  all: destruct (AnyBody.truth fu) eqn:Hf; cbn [negb fst];
    [|rewrite status_is_eq; split; try discriminate; naive_solver].
  all: cbn zeta;
    destruct (fst (check_rate_limit (AnyBody.format uid) now (rds w))) eqn:Hok;
    cbn [negb fst];
    [|rewrite status_is_eq; split; try discriminate; naive_solver].
  all: destruct (db w) as [t|] eqn:Hdb; cbn [fst];
    [|rewrite status_is_eq; split; try discriminate; naive_solver].
  all: destruct (lookup fu t) as [row|] eqn:Hlook; cbn [fst];
    [|rewrite status_is_eq; split; try discriminate; naive_solver].
  all: destruct row as [r|]; cbn [live_row];
    [destruct (is_link_expired now (created_at r)) eqn:Hexp;
     [apply is_link_expired_true in Hexp | apply is_link_expired_false in Hexp]|].
  all: destruct fu as [|f|b s o]; try discriminate; cbn [fst lookup] in *;
    rewrite status_is_eq; (split; [try discriminate; intros _|]).
  all: try (destruct o; simplify_eq).
  all: try (intros; naive_solver lia).
  all: try naive_solver.
  - repeat split; auto; exists t, r; repeat split; auto.
  - repeat split; auto; exists t, r; repeat split; auto; congruence.
  - intros (_ & _ & [H|(t0 & Ht0 & [H|[_ H]])]); simplify_eq.
    assert (now > strptime (created_at r) + LINK_TTL)
      by (apply H; congruence).
    lia.
Qed.

Lemma post_status_table_witness :
  status_is (fun c' => c' = 500)
    (fst (AnyBody.post
            (AnyBody.Object (AnyBody.Other true "123" (Some "123"))
                            (AnyBody.Text "1"))
            0 (World (Some []) ∅ [])))
  /\ status_is (fun c' => c' = 400)
       (fst (AnyBody.post
               (AnyBody.Object (AnyBody.Other false "0" (Some "0"))
                               (AnyBody.Text "1"))
               0 (World (Some []) ∅ [])))
  /\ status_is (fun c' => c' = 429)
       (fst (AnyBody.post
               (AnyBody.Object (AnyBody.Text "https://a.example/")
                               (AnyBody.Text "1"))
               0 (World (Some []) (in_flight (repeat "1" 100) 0 ∅) [])))
  /\ status_is (fun c' => c' = 201)
       (fst (AnyBody.post
               (AnyBody.Object (AnyBody.Text "https://a.example/")
                               (AnyBody.Text "1"))
               900000000
               (World (Some [Row 1 "https://a.example/" "e2d259" 0]) ∅ []))).
Proof.
  split; [|split; [|split]].
  - pose proof (post_status_table (AnyBody.Other true "123" (Some "123"))
                  (AnyBody.Text "1") 0 (World (Some []) ∅ [])) as H.
    cbv zeta beta in H. destruct H as (_ & _ & _ & _ & H500 & _). apply H500.
    split; [split; reflexivity|]. split; [vm_compute; reflexivity|].
    right. exists []. split; [reflexivity|]. right.
    split; [discriminate|]. intros r Hr. discriminate Hr.
  - pose proof (post_status_table (AnyBody.Other false "0" (Some "0"))
                  (AnyBody.Text "1") 0 (World (Some []) ∅ [])) as H.
    cbv zeta beta in H. destruct H as (H400 & _). apply H400.
    right. reflexivity.
  - pose proof (post_status_table (AnyBody.Text "https://a.example/")
                  (AnyBody.Text "1") 0
                  (World (Some []) (in_flight (repeat "1" 100) 0 ∅) [])) as H.
    cbv zeta beta in H. destruct H as (_ & H429 & _). apply H429.
    split; [split; reflexivity|]. vm_compute. reflexivity.
  - pose proof (post_status_table (AnyBody.Text "https://a.example/")
                  (AnyBody.Text "1") 900000000
                  (World (Some [Row 1 "https://a.example/" "e2d259" 0]) ∅ []))
      as H.
    cbv zeta beta in H. destruct H as (_ & _ & _ & H201 & _). apply H201.
    split; [split; reflexivity|]. split; [vm_compute; reflexivity|].
    exists [Row 1 "https://a.example/" "e2d259" 0], "https://a.example/".
    split; [reflexivity|]. split; [reflexivity|].
    right. exists (Row 1 "https://a.example/" "e2d259" 0).
    split; [reflexivity|]. vm_compute. reflexivity.
Defined.

(** ** The causes of an internal error *)

Lemma serve_created (w : world) rq :
  db w <> None -> db (serve w rq) <> None.
Proof.
  intros H. destruct (db w) as [t|] eqn:Hdb; [|contradiction].
  destruct (serve_kept w rq t Hdb) as (t' & -> & _). discriminate.
Qed.

Lemma redirect_error_some short now t e :
  redirect_error short now t = Some e <->
  e = ValueError "Header values must not contain newline characters."
  /\ exists r, sql.select_by_short_url short t = Some r
               /\ now <= strptime (created_at r) + LINK_TTL
               /\ has_newline (full_url r) = true.
Proof.
  unfold redirect_error. split.
  - destruct (sql.select_by_short_url short t) as [r|]; [|discriminate].
    destruct (is_link_expired now (created_at r)) eqn:Hexp; [discriminate|].
    destruct (has_newline (full_url r)) eqn:Hnl; [|discriminate].
    intros [= <-]. split; [reflexivity|]. exists r.
    apply is_link_expired_false in Hexp. auto.
  - intros (-> & r & -> & Hexp & ->).
    apply is_link_expired_false in Hexp. now rewrite Hexp.
Qed.

Lemma redirect_status_500 short now (w : world) :
  status_is (fun c => c = 500) (fst (RedirectURL.get short now w))
  <-> db w = None
      \/ exists t r,
          db w = Some t /\ sql.select_by_short_url short t = Some r
          /\ now <= strptime (created_at r) + LINK_TTL
          /\ has_newline (full_url r) = true.
Proof.
  rewrite redirect_url_eq.
  destruct (db w) as [t|]; cbn [fst].
  - destruct (redirect_error short now t) as [e|] eqn:He; cbn [fst].
    + rewrite status_is_500_dec. split; [intros _|reflexivity].
      apply redirect_error_some in He as (_ & r & Hr). right. now exists t, r.
    + destruct (get_outcome Location 302 short now (World (Some t) ∅ []))
        as (b & c & Hans & Hc); [discriminate|].
      cbn [db] in Hans, Hc. rewrite Hans, status_is_500_dec. split.
      * intros H. apply Hc in H. discriminate.
      * intros [[=]|(t0 & r & [= <-] & Hr)]. exfalso.
        assert (redirect_error short now t
                = Some (ValueError "Header values must not contain newline characters."))
          as He' by (apply redirect_error_some; split; [reflexivity|now exists r]).
        congruence.
  - rewrite status_is_500_dec. split; [now left | reflexivity].
Qed.

(** A request served on a created table is answered 500 only if it is a
    redirect to a URL with a line break. *)
Lemma reply_500 (w : world) rq a :
  db w <> None -> reply w rq = Some a ->
  (status_is (fun c => c <> 500) a
   /\ app_errors_log (serve w rq) = app_errors_log w)
  \/ (is_redirect rq = true /\ ~ one_line w).
Proof.
  intros Hdb. unfold status_is.
  destruct rq as [|req now|short now|short now]; simpl.
  - discriminate.
  - intros [= <-]. left.
    destruct (post_outcome req now w) as (b & c & Hans & Hc & Hlog).
    assert (c <> 500) as Hne by (intros H; apply Hc in H as [H _]; contradiction).
    split; [now exists b, c|].
    rewrite Hlog. destruct (Z.eqb_spec c 500); [contradiction | reflexivity].
  - intros [= <-]. left. rewrite get_full_url_eq.
    destruct (get_outcome JsonFullUrl 200 short now w) as (b & c & Hans & Hc);
      [discriminate|].
    destruct (db w) as [t|]; [|contradiction]. cbn [fst snd].
    split; [|reflexivity]. exists b, c. split; [exact Hans|].
    intros H. apply Hc in H. discriminate.
  - intros [= <-]. rewrite redirect_url_eq.
    destruct (get_outcome Location 302 short now w) as (b & c & Hans & Hc);
      [discriminate|].
    destruct (db w) as [t|] eqn:Hdbw; [|contradiction].
    destruct (redirect_error short now t) as [e|] eqn:He; cbn [fst snd].
    + right. split; [reflexivity|]. intros Hline.
      apply redirect_error_some in He as (_ & r & Hsel & _ & Hnl).
      apply select_by_short_url_some in Hsel as [Hin _].
      rewrite (Hline t Hdbw r Hin) in Hnl. discriminate.
    + left. split; [|reflexivity]. exists b, c. split; [exact Hans|].
      intros H. apply Hc in H. discriminate.
Qed.

Lemma one_line_serve (w : world) rq :
  one_line w -> posts_one_line rq -> one_line (serve w rq).
Proof.
  intros H Hrq. destruct rq as [|b now|s now|s now]; simpl.
  - unfold create_table. destruct (db w) eqn:Hdb; [exact H|].
    intros t [= <-] row [].
  - intros t' Ht' row Hrow.
    destruct (db w) as [t|] eqn:Hdb.
    + destruct (post_db_cases b now w t Hdb) as [[Ht _]|(f & Hf & _ & [Ht|Ht])];
        rewrite Ht in Ht'; injection Ht' as <-.
      * now apply (H t).
      * apply update_in in Hrow as [[Hrow _]|(old & _ & _ & ->)];
          [now apply (H t) | now apply Hrq].
      * unfold sql.insert in Hrow.
        apply in_app_or in Hrow as [Hrow|[<-|[]]];
          [now apply (H t) | now apply Hrq].
    + exfalso. destruct (post_outcome b now w) as (b0 & c & _ & _ & _).
      assert (db (snd (GenerateURL.post b now w)) = None) as Hnone.
      { destruct (truthy_cases (json_user_id b)) as [Hu|[u Hu]].
        { apply truthy_none in Hu. now rewrite post_no_user_id. }
        destruct (truthy_cases (json_full_url b)) as [Hf|[f Hf]].
        { apply truthy_none in Hf. now rewrite (post_no_full_url _ _ _ u Hu Hf). }
        rewrite (post_valid b now w u f Hu Hf), Hdb. cbn zeta.
        now destruct (negb (fst (check_rate_limit u now (rds w)))). }
      congruence.
  - rewrite get_full_url_eq. destruct (db w) eqn:Hdb; [exact H|]. intros t [=].
  - intros t Ht. rewrite redirect_db in Ht. now apply H.
Qed.

(** On a created table, requests that never redirect, or that never meet a
    URL with a line break, are not answered 500 and leave the log alone. *)
Lemma answers_not_500 rqs :
  forall w : world,
    db w <> None ->
    Forall (fun rq => is_redirect rq = false) rqs
    \/ (one_line w /\ Forall posts_one_line rqs) ->
    Forall (status_is (fun c => c <> 500)) (answers w rqs)
    /\ app_errors_log (fold_left serve rqs w) = app_errors_log w.
Proof.
  induction rqs as [|rq rqs IH]; intros w Hdb Hok;
    [split; [constructor | reflexivity]|].
  assert (Forall (fun rq => is_redirect rq = false) rqs
          \/ (one_line (serve w rq) /\ Forall posts_one_line rqs)) as Hrest.
  { destruct Hok as [Hok|[Hline Hok]].
    - left. now inversion Hok.
    - right. inversion Hok; subst. split; [now apply one_line_serve | assumption]. }
  simpl. destruct (IH (serve w rq) (serve_created w rq Hdb) Hrest) as [Hall Hlog].
  destruct (reply w rq) as [a|] eqn:Hr; simpl.
  - destruct (reply_500 w rq a Hdb Hr) as [[Ha Hl]|[Hred Hline]].
    + split; [now constructor | congruence].
    + exfalso. destruct Hok as [Hok|[Hl _]]; [|contradiction].
      inversion Hok; subst. congruence.
  - split; [exact Hall|]. destruct rq; try discriminate.
    rewrite Hlog. simpl. unfold create_table. now destruct (db w).
Qed.

Lemma one_line_create_table (w : world) : one_line w -> one_line (create_table w).
Proof. intros H. exact (one_line_serve w Startup H I). Qed.

(** X7. The internal errors of the handlers and their causes.  GET /get
    answers 500 exactly when the table is missing ([create_table] has not
    run).  The redirect answers 500 exactly when the table is missing or the
    row it finds is live and its URL holds a line break, which the Location
    header refuses.  POST /generate on a body that follows [url_model]
    answers 500 exactly when the table is missing and the request has passed
    validation and the rate limit; a body that is not JSON, or not a JSON
    object, is answered 500 whatever the state.  [create_table] creates the
    table empty, or keeps the rows it finds, and touches nothing else.
    After it, requests served one after another are never answered 500, and
    the error log stays as it is, provided none of them is a redirect, or no
    URL stored or posted holds a line break. *)
Theorem internal_errors_and_their_causes :
  (forall short now (w : world),
      status_is (fun c => c = 500) (fst (GetFullURL.get short now w))
      <-> db w = None)
  /\ (forall short now (w : world),
         status_is (fun c => c = 500) (fst (RedirectURL.get short now w))
         <-> db w = None
             \/ exists t r,
                 db w = Some t /\ sql.select_by_short_url short t = Some r
                 /\ now <= strptime (created_at r) + LINK_TTL
                 /\ has_newline (full_url r) = true)
  /\ (forall req now (w : world),
         status_is (fun c => c = 500) (fst (GenerateURL.post req now w))
         <-> db w = None
             /\ exists u f,
                 GenerateURL.truthy (json_user_id req) = Some u
                 /\ GenerateURL.truthy (json_full_url req) = Some f
                 /\ fst (check_rate_limit u now (rds w)) = true)
  /\ (forall now (w : world),
         status_is (fun c => c = 500) (fst (AnyBody.post AnyBody.NotJson now w))
         /\ status_is (fun c => c = 500)
              (fst (AnyBody.post AnyBody.NotObject now w)))
  /\ (forall w : world,
         db (create_table w) = Some (default [] (db w))
         /\ rds (create_table w) = rds w
         /\ app_errors_log (create_table w) = app_errors_log w)
  /\ (forall rqs (w : world),
         Forall (fun rq => is_redirect rq = false) rqs
         \/ (one_line w /\ Forall posts_one_line rqs) ->
         Forall (status_is (fun c => c <> 500)) (answers (create_table w) rqs)
         /\ app_errors_log (fold_left serve rqs (create_table w))
            = app_errors_log w).
Proof.
  split; [|split; [|split; [|split; [|split]]]].
  - intros short now w. rewrite get_full_url_eq.
    pose proof (get_status_500 JsonFullUrl 200 short now w) as Hfull.
    destruct (db w) as [t|]; cbn [fst]; apply Hfull; discriminate.
  - apply redirect_status_500.
  - intros req now w.
    destruct (post_outcome req now w) as (b & c & -> & Hc & _).
    now rewrite status_is_500_dec.
  - intros now w. rewrite !any_post_eq. cbn [fst].
    split; apply status_is_500_dec; reflexivity.
  - intros w. unfold create_table. destruct w as [[t|] r lg]; simpl; auto.
  - intros rqs w Hok.
    assert (db (create_table w) <> None) as Hdb.
    { unfold create_table. destruct (db w) eqn:E; simpl; congruence. }
    assert (Forall (fun rq => is_redirect rq = false) rqs
            \/ (one_line (create_table w) /\ Forall posts_one_line rqs)) as Hok'.
    { destruct Hok as [Hok|[Hline Hok]]; [now left|right].
      split; [now apply one_line_create_table | exact Hok]. }
    destruct (answers_not_500 rqs (create_table w) Hdb Hok') as [Hall Hlog].
    split; [exact Hall|]. rewrite Hlog.
    unfold create_table. now destruct (db w).
Qed.

Lemma internal_errors_and_their_causes_witness :
  status_is (fun c => c = 500)
    (fst (RedirectURL.get "abc123" 0
            (World (Some [Row 1 ("https://a.example/" +:+ String "010" "x")
                            "abc123" 0]) ∅ [])))
  /\ Forall (status_is (fun c => c <> 500))
       (answers (create_table (World None ∅ []))
          [PostGenerate (Json (Some "https://a.example/") (Some "1")) 0;
           GetFull "e2d259" 1000000; GetRedirect "e2d259" 2000000]).
Proof.
  destruct internal_errors_and_their_causes
    as (_ & Hredirect & _ & _ & _ & Hrun).
  split.
  - apply Hredirect. right.
    exists [Row 1 ("https://a.example/" +:+ String "010" "x") "abc123" 0],
      (Row 1 ("https://a.example/" +:+ String "010" "x") "abc123" 0).
    repeat split; vm_compute; congruence.
  - apply (Hrun _ (World None ∅ [])). right. split.
    + intros t [=].
    + repeat constructor. intros f [= <-]. vm_compute. reflexivity.
Defined.
